(** * Verification development for the NYBORG admin dashboard.

  Sources embedded:
  - [src/ai-service.js]                    : [AIService.generateFromPrompt]
  - [src/technical_implementation_guide.md] : the SQL schema (tables and
    their PRIMARY KEY / UNIQUE / FOREIGN KEY / CHECK constraints), the
    TypeScript interfaces, the Redis cache function
    [getCachedDashboardData], the [requireRole] middleware and the admin
    dashboard route, the [useRealtimeMetrics] hook and the Prometheus
    [metricsMiddleware].
  The analytics core of the dashboard (the function [generateDashboardData]
  called by the cache, the report endpoints and the stream endpoint) is
  referenced by the guide but its code is not part of the repository; the
  definitions standing for it say so in their doc comments. *)

From Stdlib Require Import QArith Qround ZArith Lia Lqa.
From stdpp Require Import base list gmap strings.

Open Scope string_scope.

(* ================================================================== *)
(** ** [src/ai-service.js] *)
(* ================================================================== *)

Module AIService.

(** [class AIService] has no fields: the object carries no state. *)
Record AIService := mkAIService {}.

(** A JS promise that resolves to a value (the method is [async] and
    never rejects or awaits). *)
Inductive Promise (A : Type) := Resolved (v : A).
Arguments Resolved {A} v.

(** The literal ['Genereret kode baseret på: '] (UTF-8 bytes). *)
Definition prefix : string := "Genereret kode baseret på: ".

(** [async generateFromPrompt(prompt) { return '...' + prompt; }] *)
Definition generateFromPrompt (self : AIService) (prompt : string) : Promise string :=
  Resolved (prefix ++ prompt).

End AIService.

(* ================================================================== *)
(** ** The SQL schema of the guide (section "Database Schema Design") *)
(* ================================================================== *)

Module Schema.

(** UUID columns as strings; a nullable column as [option]. Timestamps
    as integers (time units). *)
Definition uuid := string.

Inductive role := admin | instructor | student.
Inductive course_status := draft | active_course | archived.
Inductive enrollment_status := active | completed | dropped.

Record user_row := mkUser {
  u_id : uuid; u_role : role; u_last_login : option Z; u_is_active : bool }.

Record course_row := mkCourse {
  c_id : uuid; c_instructor_id : option uuid; c_status : course_status }.

(** [CREATE TABLE enrollments]: [id] PRIMARY KEY, [user_id] and
    [course_id] nullable foreign keys; no other constraint. *)
Record enrollment_row := mkEnrollment {
  e_id : uuid; e_user_id : option uuid; e_course_id : option uuid;
  e_enrolled_at : Z; e_completed_at : option Z;
  e_progress_percentage : Z; e_status : enrollment_status }.

Record module_row := mkModule {
  m_id : uuid; m_course_id : option uuid; m_order_index : Z;
  m_estimated_duration : option Z }.

(** [CREATE TABLE user_module_progress]: [id] PRIMARY KEY and
    [UNIQUE(user_id, module_id)]. *)
Record progress_row := mkProgress {
  p_id : uuid; p_user_id : option uuid; p_module_id : option uuid;
  p_started_at : option Z; p_completed_at : option Z; p_time_spent : Z }.

(** [course_feedback] / [module_feedback]: [rating INTEGER CHECK
    (rating >= 1 AND rating <= 5)]; [target] is [course_id] resp.
    [module_id]. *)
Record feedback_row := mkFeedback {
  f_id : uuid; f_user_id : option uuid; f_target : option uuid;
  f_rating : option Z; f_created_at : Z }.

Record DB := mkDB {
  users : list user_row;
  courses : list course_row;
  enrollments : list enrollment_row;
  modules : list module_row;
  user_module_progress : list progress_row;
  course_feedback : list feedback_row;
  module_feedback : list feedback_row }.

Definition empty_db : DB := mkDB [] [] [] [] [] [] [].

(** A nullable foreign key: NULL passes, otherwise the id must exist. *)
Definition fk_ok (ids : list uuid) (k : option uuid) : bool :=
  match k with
  | None => true
  | Some x => bool_decide (x ∈ ids)
  end.

(** A two-column UNIQUE constraint: rows with a NULL in a column never
    conflict (SQL semantics of NULL in UNIQUE). *)
Definition same_pair (a b : option uuid * option uuid) : bool :=
  match a, b with
  | (Some x1, Some y1), (Some x2, Some y2) => bool_decide (x1 = x2 /\ y1 = y2)
  | _, _ => false
  end.

(** [INSERT INTO enrollments]: checks the PRIMARY KEY and both foreign
    keys; the table declares nothing on [(user_id, course_id)]. *)
Definition insert_enrollment (db : DB) (r : enrollment_row) : option DB :=
  if bool_decide (e_id r ∈ map e_id (enrollments db)) then None
  else if negb (fk_ok (map u_id (users db)) (e_user_id r)) then None
  else if negb (fk_ok (map c_id (courses db)) (e_course_id r)) then None
  else Some (mkDB (users db) (courses db) (enrollments db ++ [r])
                  (modules db) (user_module_progress db)
                  (course_feedback db) (module_feedback db)).

(** [INSERT INTO user_module_progress]: PRIMARY KEY, foreign keys and
    [UNIQUE(user_id, module_id)]. *)
Definition insert_progress (db : DB) (r : progress_row) : option DB :=
  if bool_decide (p_id r ∈ map p_id (user_module_progress db)) then None
  else if negb (fk_ok (map u_id (users db)) (p_user_id r)) then None
  else if negb (fk_ok (map m_id (modules db)) (p_module_id r)) then None
  else if existsb (fun r' => same_pair (p_user_id r', p_module_id r')
                                       (p_user_id r, p_module_id r))
                  (user_module_progress db) then None
  else Some (mkDB (users db) (courses db) (enrollments db)
                  (modules db) (user_module_progress db ++ [r])
                  (course_feedback db) (module_feedback db)).

(** Number of enrollment rows of a (user, course) pair. *)
Definition enrollments_of (db : DB) (u c : uuid) : nat :=
  length (filter (fun r => e_user_id r = Some u /\ e_course_id r = Some c)
                 (enrollments db)).

Definition progress_of (db : DB) (u m : uuid) : nat :=
  length (filter (fun r => p_user_id r = Some u /\ p_module_id r = Some m)
                 (user_module_progress db)).

(** A store with one student and one course. *)
Definition db0 : DB :=
  mkDB [mkUser "u1" student None true] [mkCourse "c1" None active_course]
       [] [mkModule "m1" (Some "c1") 1 None] [] [] [].

Definition enr (id : uuid) : enrollment_row :=
  mkEnrollment id (Some "u1") (Some "c1") 0 None 0 active.

Definition prog (id : uuid) : progress_row :=
  mkProgress id (Some "u1") (Some "m1") None None 0.

End Schema.

(* ================================================================== *)
(** ** MetricsAggregator *)
(* ================================================================== *)

Module Metrics.

Inductive scope := Global | Course (c : string).

(** Entity records as the aggregator consumes them (spec, section 3). *)
Record Enrollment := mkEnr {
  enr_userId : string; enr_courseId : string; enr_status : Schema.enrollment_status }.
Record Feedback := mkFb { fb_userId : string; fb_targetId : string; fb_rating : Z }.
Record Module := mkMod { mod_id : string; mod_courseId : string }.
Record ModuleProgress := mkMp {
  mp_userId : string; mp_moduleId : string; mp_timeSpentSeconds : Z }.

Record Store := mkStore {
  st_courses : list string;
  st_enrollments : list Enrollment;
  st_modules : list Module;
  st_progress : list ModuleProgress;
  st_feedback : list Feedback }.

(** The TypeScript interfaces type these fields [number]; the
    aggregator below uses [option Q], [None] standing for [null]. *)
Record Snapshot := mkSnap {
  totalCourses : nat;
  totalStudents : nat;
  activeEnrollments : nat;
  completionRate : option Q;
  averageSatisfaction : option Q;
  averageTimeSpent : option Q }.

Definition course_in_scope (sc : scope) (c : string) : bool :=
  match sc with Global => true | Course c' => String.eqb c c' end.

Definition module_in_scope (s : Store) (sc : scope) (m : string) : bool :=
  existsb (fun md => String.eqb (mod_id md) m && course_in_scope sc (mod_courseId md))
          (st_modules s).

(** A feedback row is course- or module-scoped by its target. *)
Definition feedback_in_scope (s : Store) (sc : scope) (f : Feedback) : bool :=
  match sc with
  | Global => true
  | Course c => String.eqb (fb_targetId f) c || module_in_scope s sc (fb_targetId f)
  end.

Definition is_completed (e : Enrollment) : bool :=
  match enr_status e with Schema.completed => true | _ => false end.
Definition is_active (e : Enrollment) : bool :=
  match enr_status e with Schema.active => true | _ => false end.
Definition is_dropped (e : Enrollment) : bool :=
  match enr_status e with Schema.dropped => true | _ => false end.

(** [n / d], or [null] when [d = 0] (no division by zero is raised). *)
Definition ratio (n d : Z) : option Q :=
  if Z.eqb d 0 then None else Some (inject_Z n / inject_Z d)%Q.

(** One pass over the enrollments: (total, completed, active). *)
Definition count_enrollments (sc : scope) (es : list Enrollment) : nat * nat * nat :=
  fold_left (fun acc e =>
               let '(t, c, a) := acc in
               if course_in_scope sc (enr_courseId e)
               then (S t, if is_completed e then S c else c, if is_active e then S a else a)
               else acc) es (0%nat, 0%nat, 0%nat).

(** One pass over the feedback rows: (rows, sum of ratings). *)
Definition sum_ratings (s : Store) (sc : scope) (fs : list Feedback) : nat * Z :=
  fold_left (fun acc f =>
               let '(n, sum) := acc in
               if feedback_in_scope s sc f then (S n, sum + fb_rating f)%Z else acc)
            fs (0%nat, 0%Z).

Definition progress_in_scope (s : Store) (sc : scope) : list ModuleProgress :=
  filter (fun p => module_in_scope s sc (mp_moduleId p) = true) (st_progress s).

(** Modelled from the spec: the MetricsAggregator (section 4.1), whose
    code is not in the repository; one pass over the enrollments and one
    over the feedback rows. *)
Definition aggregate (s : Store) (sc : scope) : Snapshot :=
  let '(total, done, act) := count_enrollments sc (st_enrollments s) in
  let '(nfb, rsum) := sum_ratings s sc (st_feedback s) in
  let ps := progress_in_scope s sc in
  let participants := remove_dups (map mp_userId ps) in
  mkSnap
    (length (filter (fun c => course_in_scope sc c = true) (st_courses s)))
    (length (remove_dups
               (map enr_userId
                    (filter (fun e => course_in_scope sc (enr_courseId e) && negb (is_dropped e) = true)
                            (st_enrollments s)))))
    act
    (ratio (Z.of_nat done) (Z.of_nat total))
    (ratio rsum (Z.of_nat nfb))
    (ratio (fold_right (fun p acc => mp_timeSpentSeconds p + acc)%Z 0%Z ps) (Z.of_nat (length participants))).

(** Enrollments and feedback rows in scope, as the spec phrases them. *)
Definition enrollments_in (s : Store) (sc : scope) : list Enrollment :=
  filter (fun e => course_in_scope sc (enr_courseId e) = true) (st_enrollments s).
Definition feedback_in (s : Store) (sc : scope) : list Feedback :=
  filter (fun f => feedback_in_scope s sc f = true) (st_feedback s).

Definition mkE (st : Schema.enrollment_status) : Enrollment := mkEnr "u" "c1" st.

(** A course with enrollments [completed x6, active x4] and feedback
    ratings [5;4;3]. *)
Definition course_store : Store :=
  mkStore ["c1"; "c2"]
    (repeat (mkE Schema.completed) 6 ++ repeat (mkE Schema.active) 4)
    [mkMod "m1" "c1"] []
    [mkFb "a" "c1" 5; mkFb "b" "m1" 4; mkFb "c" "c1" 3; mkFb "d" "c2" 1].

Definition sumZ (l : list Z) : Z := fold_right Z.add 0%Z l.

End Metrics.

(* ================================================================== *)
(** ** [getCachedDashboardData] (section "Caching Strategy") *)
(* ================================================================== *)

Module Cache.
Import Metrics.

(** Modelled from the spec: [generateDashboardData], called by the cache
    function but not part of the repository, computes the dashboard
    snapshot from the store (the MetricsAggregator at global scope). *)
Definition generateDashboardData (db : Store) (adminId : string) : Snapshot :=
  aggregate db Global.

(** [const cacheKey = `dashboard:${adminId}`] *)
Definition cacheKey (adminId : string) : string := "dashboard:" ++ adminId.

(** A Redis value written by [setex]. [JSON.parse (JSON.stringify d)]
    gives back [d] for a snapshot (plain numbers and nulls), so the value
    is kept as the snapshot itself. [ent_at] is ghost data: the time the
    snapshot was computed, not stored by the code. *)
Record entry := mkEntry { ent_val : Snapshot; ent_at : Z; ent_exp : Z }.

(** The await points of one call of the async function. *)
Inductive phase :=
| Start                          (** before [await redis.get(cacheKey)] *)
| Miss                           (** [cached] was null: before [await generateDashboardData] *)
| Computed (d : Snapshot) (cat : Z) (** before [await redis.setex(cacheKey, 300, ...)] *)
| Returned (d : Snapshot) (cat : Z). (** the promise resolved to [d] *)

Record task := mkTask { t_admin : string; t_phase : phase }.

Record state := mkState {
  now : Z;
  db : Store;
  redis : gmap string entry;
  tasks : list task;
  calls : list string  (** adminIds passed to [generateDashboardData], in order *) }.

(** [redis.get]: a key set with [setex] is kept until the current time
    is strictly past its expiry time, then it is gone. *)
Definition redis_get (st : state) (k : string) : option entry :=
  match redis st !! k with
  | Some e => if Z.leb (now st) (ent_exp e) then Some e else None
  | None => None
  end.

Definition set_phase (st : state) (i : nat) (t : task) (p : phase) : list task :=
  <[i := mkTask (t_admin t) p]> (tasks st).

(** One resumption of call [i] up to its next await. *)
Definition run_task (st : state) (i : nat) : option state :=
  match tasks st !! i with
  | None => None
  | Some t =>
    let k := cacheKey (t_admin t) in
    match t_phase t with
    | Start =>
      match redis_get st k with
      | Some e => (* if (cached) return JSON.parse(cached) *)
        Some (mkState (now st) (db st) (redis st)
                      (set_phase st i t (Returned (ent_val e) (ent_at e))) (calls st))
      | None =>
        Some (mkState (now st) (db st) (redis st) (set_phase st i t Miss) (calls st))
      end
    | Miss => (* const data = await generateDashboardData(adminId) *)
      Some (mkState (now st) (db st) (redis st)
                    (set_phase st i t (Computed (generateDashboardData (db st) (t_admin t)) (now st)))
                    (calls st ++ [t_admin t]))
    | Computed d cat => (* await redis.setex(cacheKey, 300, ...); return data *)
      Some (mkState (now st) (db st) (<[k := mkEntry d cat (now st + 300)]> (redis st))
                    (set_phase st i t (Returned d cat)) (calls st))
    | Returned _ _ => None
    end
  end.

(** Modelled from the spec: [invalidate(scope)], absent from the
    repository, removes the cache entry immediately, whatever its TTL. *)
Definition invalidate (st : state) (adminId : string) : state :=
  mkState (now st) (db st) (delete (cacheKey adminId) (redis st)) (tasks st) (calls st).

Inductive action :=
| Spawn (adminId : string)  (** a new call [getCachedDashboardData(adminId)] *)
| Run (i : nat)             (** call [i] resumes *)
| Tick                      (** time advances *)
| Mutate (s : Store)        (** the entity store changes *)
| Invalidate (adminId : string).

Definition step (st : state) (a : action) : option state :=
  match a with
  | Spawn x => Some (mkState (now st) (db st) (redis st) (tasks st ++ [mkTask x Start]) (calls st))
  | Run i => run_task st i
  | Tick => Some (mkState (now st + 1) (db st) (redis st) (tasks st) (calls st))
  | Mutate s => Some (mkState (now st) s (redis st) (tasks st) (calls st))
  | Invalidate x => Some (invalidate st x)
  end.

Fixpoint exec (st : state) (acts : list action) : option state :=
  match acts with
  | [] => Some st
  | a :: acts' => match step st a with Some st' => exec st' acts' | None => None end
  end.

Definition init (s : Store) : state := mkState 0 s ∅ [] [].

(** The store after a new feedback row. *)
Definition course_store' : Store :=
  mkStore (st_courses course_store) (st_enrollments course_store) (st_modules course_store)
          (st_progress course_store) (mkFb "e" "c1" 1 :: st_feedback course_store).

(** The cache after one call of [getCachedDashboardData("a")] completed,
    with a second call just issued. *)
Definition warm_state : state :=
  Eval vm_compute in
    match exec (init course_store) [Spawn "a"; Run 0; Run 0; Run 0; Tick; Spawn "a"] with
    | Some st => st
    | None => init course_store
    end.

(** Ghost invariant for key [a] after an invalidation at time [tinv]:
    the entry and every pending write hold snapshots computed at or after
    [tinv], and so do the results of the calls issued from index [n0] on. *)
Definition fresh_since (a : string) (tinv : Z) (n0 : nat) (st : state) : Prop :=
  (tinv <= now st)%Z /\
  (forall e, redis st !! cacheKey a = Some e -> (tinv <= ent_at e)%Z) /\
  (forall i d c, tasks st !! i = Some (mkTask a (Computed d c)) -> (tinv <= c)%Z) /\
  (forall i d c, (n0 <= i)%nat -> tasks st !! i = Some (mkTask a (Returned d c)) -> (tinv <= c)%Z).

(** Number of invocations [generateDashboardData(a)] so far. *)
Definition count_calls (a : string) (st : state) : nat :=
  length (List.filter (fun x => String.eqb x a) (calls st)).

(** Whether a call for [a] is past its [await generateDashboardData]. *)
Definition past_miss (a : string) (t : option task) : bool :=
  match t with
  | Some (mkTask b (Computed _ _)) | Some (mkTask b (Returned _ _)) => String.eqb b a
  | _ => false
  end.

(** Two calls for ["a"] on an empty cache, both past a missing [redis.get]. *)
Definition two_missed : state :=
  Eval vm_compute in
    match exec (init course_store) [Spawn "a"; Spawn "a"; Run 0; Run 1] with
    | Some st => st
    | None => init course_store
    end.

End Cache.

(* ================================================================== *)
(** ** ReportGenerator *)
(* ================================================================== *)

(** Modelled from the spec: the handlers of [POST /api/admin/reports/generate]
  and [GET /api/admin/reports/:reportId/download] and the generating task.
  The guide declares only the [ReportRequest] interface and the routes;
  the behaviour below follows spec sections 3, 4.3, 5 and 7. *)
Module Reports.

Inductive report_type := course_performance | user_engagement | satisfaction | financial.
Inductive format := json | excel | pdf.

(** [ReportRequest] of the guide. *)
Record DateRange := mkRange { range_start : Z; range_end : Z }.
Record Filters := mkFilters {
  courseIds : option (list string); userIds : option (list string);
  status_filter : option (list string) }.
Record ReportRequest := mkRequest {
  req_type : report_type; dateRange : DateRange; filters : Filters; req_format : format }.

Inductive status := pending | generating | ready | failed.

Record Report := mkReport {
  r_id : nat; r_request : ReportRequest; r_status : status;
  r_payload : option string; r_cause : option string;
  r_createdAt : Z; r_expiresAt : Z }.

Record RState := mkRState {
  known_courses : list string; known_users : list string;  (** the entity store *)
  reports : gmap nat Report;
  next_id : nat;
  clock : Z;
  report_ttl : Z  (** configuration; the spec gives no value *) }.

Inductive error :=
| ValidationError (msg : string)
| NotFoundError
| NotReadyError
| GenerationFailure (cause : string).

Definition ids_known (known : list string) (ids : option (list string)) : bool :=
  match ids with
  | None => true
  | Some l => forallb (fun x => bool_decide (x ∈ known)) l
  end.

(** Modelled from the spec: the synchronous validation of a report
    request (section 4.3), run before any report exists. *)
Definition validate (st : RState) (req : ReportRequest) : option error :=
  if negb (Z.leb (range_start (dateRange req)) (range_end (dateRange req)))
  then Some (ValidationError "start > end")
  else if negb (ids_known (known_courses st) (courseIds (filters req)))
  then Some (ValidationError "unknown course id")
  else if negb (ids_known (known_users st) (userIds (filters req)))
  then Some (ValidationError "unknown user id")
  else None.

Definition with_reports (st : RState) (rs : gmap nat Report) (n : nat) : RState :=
  mkRState (known_courses st) (known_users st) rs n (clock st) (report_ttl st).

(** Modelled from the spec: the handler of
    [POST /api/admin/reports/generate]; the error, or the new id. *)
Definition generate (st : RState) (req : ReportRequest) : (error + nat) * RState :=
  match validate st req with
  | Some err => (inl err, st)
  | None =>
    let id := next_id st in
    let r := mkReport id req pending None None (clock st) (clock st + report_ttl st) in
    (inr id, with_reports st (<[id := r]> (reports st)) (S id))
  end.

Definition set_status (r : Report) (s : status) (payload cause : option string) : Report :=
  mkReport (r_id r) (r_request r) s payload cause (r_createdAt r) (r_expiresAt r).

Definition expired (st : RState) (r : Report) : bool := Z.leb (r_expiresAt r) (clock st).

(** Modelled from the spec: the generating task; each transition is guarded by the current
    status; past [expiresAt] the task stops writing. *)
Definition begin_generation (st : RState) (id : nat) : RState :=
  match reports st !! id with
  | Some r =>
    match r_status r with
    | pending =>
      if expired st r then st
      else with_reports st (<[id := set_status r generating None None]> (reports st)) (next_id st)
    | _ => st
    end
  | None => st
  end.

(** Modelled from the spec: the end of generation, [ready] with a
    payload or [failed] with a cause. *)
Definition finish_generation (st : RState) (id : nat) (outcome : string + string) : RState :=
  match reports st !! id with
  | Some r =>
    match r_status r with
    | generating =>
      if expired st r then st
      else
        let r' := match outcome with
                  | inl payload => set_status r ready (Some payload) None
                  | inr cause => set_status r failed None (Some cause)
                  end in
        with_reports st (<[id := r']> (reports st)) (next_id st)
    | _ => st
    end
  | None => st
  end.

(** Modelled from the spec: eviction of an expired report. *)
Definition evict (st : RState) (id : nat) : RState :=
  match reports st !! id with
  | Some r => if expired st r then with_reports st (delete id (reports st)) (next_id st) else st
  | None => st
  end.

(** Modelled from the spec: [GET /api/admin/reports/:reportId/download]. *)
Definition download (st : RState) (id : nat) : error + string :=
  match reports st !! id with
  | None => inl NotFoundError
  | Some r =>
    if expired st r then inl NotFoundError
    else match r_status r, r_payload r, r_cause r with
         | ready, Some p, _ => inr p
         | failed, _, Some c => inl (GenerationFailure c)
         | failed, _, None => inl (GenerationFailure "")
         | ready, None, _ => inl NotReadyError
         | _, _, _ => inl NotReadyError
         end
  end.

Inductive action :=
| Request (req : ReportRequest)
| Begin (id : nat)
| Finish (id : nat) (outcome : string + string)
| Evict (id : nat)
| Tick.

Definition step (st : RState) (a : action) : RState :=
  match a with
  | Request req => snd (generate st req)
  | Begin id => begin_generation st id
  | Finish id o => finish_generation st id o
  | Evict id => evict st id
  | Tick => mkRState (known_courses st) (known_users st) (reports st) (next_id st)
                     (clock st + 1) (report_ttl st)
  end.

Definition exec (st : RState) (acts : list action) : RState := fold_left step acts st.

(** The states an execution passes through, the initial one first. *)
Fixpoint trace (st : RState) (acts : list action) : list RState :=
  st :: match acts with [] => [] | a :: acts' => trace (step st a) acts' end.

(** Allowed single changes of a report's status. *)
Inductive status_step : status -> status -> Prop :=
| stay s : status_step s s
| to_generating : status_step pending generating
| to_ready : status_step generating ready
| to_failed : status_step generating failed.

(** Every report id is below the counter used for the next one. *)
Definition ids_below (st : RState) : Prop :=
  forall id r, reports st !! id = Some r -> (id < next_id st)%nat.

(** What one step may do to the report store: ids stay below the
    counter, the counter does not decrease, and a report present after
    the step either was present before with an allowed status change or
    is new under a fresh id. *)
Definition step_ok (st st' : RState) : Prop :=
  ids_below st' /\ (next_id st <= next_id st')%nat /\
  (forall id r2, reports st' !! id = Some r2 ->
     (exists r1, reports st !! id = Some r1 /\ status_step (r_status r1) (r_status r2)) \/
     (reports st !! id = None /\ (next_id st <= id)%nat)).

Definition rs0 : RState := mkRState ["c1"; "c2"] ["u1"] ∅ 0 0 100.

Definition req_ok : ReportRequest :=
  mkRequest satisfaction (mkRange 0 10) (mkFilters (Some ["c1"]) None None) pdf.
Definition req_backwards : ReportRequest :=
  mkRequest satisfaction (mkRange 10 0) (mkFilters None None None) json.

End Reports.

(* ================================================================== *)
(** ** UpdateBroadcaster *)
(* ================================================================== *)

(** Modelled from the spec: the server side of
  [GET /api/admin/dashboard/stream]. The guide contains only the client
  hook [useRealtimeMetrics] (an [EventSource] whose [onmessage] calls
  [setMetrics]); the registry with one pending slot per subscriber follows
  spec sections 3 and 4.5. *)
Module Broadcast.
Import Metrics.

Definition scope_eqb (a b : scope) : bool :=
  match a, b with
  | Global, Global => true
  | Course x, Course y => String.eqb x y
  | _, _ => false
  end.

(** A subscription: its scope and the slot for one undelivered snapshot. *)
Record Subscription := mkSub { sub_scope : scope; sub_pending : option Snapshot }.

Record BState := mkB {
  registry : gmap string Subscription;
  emitted : list (string * Snapshot)  (** what the channels delivered, in order *) }.

Definition subscribe (sid : string) (sc : scope) (st : BState) : BState :=
  mkB (<[sid := mkSub sc None]> (registry st)) (emitted st).

Definition disconnect (sid : string) (st : BState) : BState :=
  mkB (delete sid (registry st)) (emitted st).

(** Modelled from the spec: a recomputed snapshot for [sc] replaces the pending slot of every
    subscriber of [sc]. *)
Definition publish (sc : scope) (snap : Snapshot) (st : BState) : BState :=
  mkB ((fun s => if scope_eqb (sub_scope s) sc then mkSub (sub_scope s) (Some snap) else s)
         <$> registry st)
      (emitted st).

(** Modelled from the spec: the channel of [sid] drains its slot; a failed delivery removes the
    subscriber without retry. *)
Definition deliver (sid : string) (ok : bool) (st : BState) : BState :=
  match registry st !! sid with
  | Some s =>
    match sub_pending s with
    | Some snap =>
      if ok then mkB (<[sid := mkSub (sub_scope s) None]> (registry st)) (emitted st ++ [(sid, snap)])
      else mkB (delete sid (registry st)) (emitted st)
    | None => st
    end
  | None => st
  end.

Definition publish_all (pubs : list (scope * Snapshot)) (st : BState) : BState :=
  fold_left (fun st p => publish (fst p) (snd p) st) pubs st.

Definition snapA : Snapshot := aggregate course_store (Course "c1").
Definition snapB : Snapshot := aggregate Cache.course_store' (Course "c1").
Definition bs0 : BState := subscribe "s1" (Course "c1") (mkB ∅ []).

End Broadcast.

(* ================================================================== *)
(** ** RiskClassifier *)
(* ================================================================== *)

(** Modelled from the spec: the classification behind
  [UserAnalytics.riskLevel] (section 4.2); the guide only declares the
  field. The spec leaves two inputs open, kept here as configuration:
  the weights (no default is given) and the normalized rating used for a
  user who gave no rating. *)
Module Risk.
Local Open Scope Q_scope.

Record Config := mkConfig {
  w1 : Q; w2 : Q; w3 : Q;
  inactivityThreshold : Q;   (** days; documented default 30 *)
  cutLow : Q; cutHigh : Q;   (** defaults 0.33 and 0.66 *)
  noRating : Q               (** normalized rating of a user without ratings *) }.

Inductive riskLevel := low | medium | high.

(** Saturates at 1 past the threshold, linear before; never logged in
    counts as maximal. *)
Definition inactivityScore (cfg : Config) (daysSinceLogin : option Q) : Q :=
  match daysSinceLogin with
  | None => 1
  | Some d => if Qle_bool (inactivityThreshold cfg) d then 1 else d / inactivityThreshold cfg
  end.

(** Ratings in [1,5] normalized to [0,1]. *)
Definition normalizedRating (cfg : Config) (avgRating : option Q) : Q :=
  match avgRating with
  | None => noRating cfg
  | Some r => (r - 1) / 4
  end.

Definition score (cfg : Config) (days : option Q) (completionRate : Q) (avgRating : option Q) : Q :=
  w1 cfg * inactivityScore cfg days + w2 cfg * (1 - completionRate)
  + w3 cfg * (1 - normalizedRating cfg avgRating).

(** Ties at a cut point go to the higher band. *)
Definition band (cfg : Config) (s : Q) : riskLevel :=
  if negb (Qle_bool (cutLow cfg) s) then low
  else if negb (Qle_bool (cutHigh cfg) s) then medium
  else high.

(** Modelled from the spec: the risk band of a user (section 4.2). *)
Definition classify (cfg : Config) (days : option Q) (completionRate : Q) (avgRating : option Q)
  : riskLevel := band cfg (score cfg days completionRate avgRating).

Definition config (a b c noR : Q) : Config := mkConfig a b c 30 (33 # 100) (66 # 100) noR.

End Risk.

(* ================================================================== *)
(** ** More of the schema: the feedback tables and table invariants *)
(* ================================================================== *)

Module SchemaMore.
Import Schema.

(** [rating INTEGER CHECK (rating >= 1 AND rating <= 5)]: a NULL rating
    makes the CHECK unknown, which SQL accepts. *)
Definition rating_ok (r : option Z) : bool :=
  match r with
  | None => true
  | Some x => Z.leb 1 x && Z.leb x 5
  end.

(** [INSERT INTO course_feedback]: PRIMARY KEY, foreign keys to [users]
    and [courses], and the CHECK on [rating]. *)
Definition insert_course_feedback (db : DB) (r : feedback_row) : option DB :=
  if bool_decide (f_id r ∈ map f_id (course_feedback db)) then None
  else if negb (fk_ok (map u_id (users db)) (f_user_id r)) then None
  else if negb (fk_ok (map c_id (courses db)) (f_target r)) then None
  else if negb (rating_ok (f_rating r)) then None
  else Some (mkDB (users db) (courses db) (enrollments db) (modules db)
                  (user_module_progress db) (course_feedback db ++ [r]) (module_feedback db)).

(** [INSERT INTO module_feedback]: the same with [module_id REFERENCES modules(id)]. *)
Definition insert_module_feedback (db : DB) (r : feedback_row) : option DB :=
  if bool_decide (f_id r ∈ map f_id (module_feedback db)) then None
  else if negb (fk_ok (map u_id (users db)) (f_user_id r)) then None
  else if negb (fk_ok (map m_id (modules db)) (f_target r)) then None
  else if negb (rating_ok (f_rating r)) then None
  else Some (mkDB (users db) (courses db) (enrollments db) (modules db)
                  (user_module_progress db) (course_feedback db) (module_feedback db ++ [r])).

(** The [(user_id, module_id)] pair of a progress row, when neither is NULL. *)
Definition progress_pair (r : progress_row) : option (uuid * uuid) :=
  match p_user_id r, p_module_id r with
  | Some u, Some m => Some (u, m)
  | _, _ => None
  end.

Definition progress_pairs_unique (db : DB) : Prop :=
  NoDup (omap progress_pair (user_module_progress db)).

(** PRIMARY KEY and FOREIGN KEY integrity of [enrollments]. *)
Definition enrollment_integrity (db : DB) : Prop :=
  NoDup (map e_id (enrollments db)) /\
  Forall (fun r => fk_ok (map u_id (users db)) (e_user_id r) = true /\
                   fk_ok (map c_id (courses db)) (e_course_id r) = true) (enrollments db).

(** Every stored rating is NULL or between 1 and 5. *)
Definition feedback_ratings_ok (db : DB) : Prop :=
  Forall (fun r => match f_rating r with None => True | Some x => (1 <= x <= 5)%Z end)
         (course_feedback db ++ module_feedback db).

Definition fb (id : uuid) (rating : option Z) : feedback_row :=
  mkFeedback id (Some "u1") (Some "c1") rating 0.

End SchemaMore.

(* ================================================================== *)
(** ** [requireRole] and the admin route (section "Authentication & Authorization") *)
(* ================================================================== *)

Module Auth.
Import Schema.

#[global] Instance role_eq_dec : EqDecision role.
Proof. solve_decision. Defined.

(** [req.user] as set by the JWT middleware. *)
Record JwtUser := mkJwtUser { jwt_id : string; jwt_role : role }.
Record Request := mkRequest { req_user : option JwtUser; req_path : string }.

(** A middleware either answers ([res.status(s).json(...)]) or calls
    [next()] with the request. *)
Inductive MwResult := Respond (status : Z) (error : string) | Next (req : Request).

Definition middleware := Request -> MwResult.

(** [requireRole(roles)] *)
Definition requireRole (roles : list role) : middleware := fun req =>
  match req_user req with
  | None => Respond 403 "Insufficient permissions"
  | Some u =>
    if bool_decide (jwt_role u ∈ roles) then Next req
    else Respond 403 "Insufficient permissions"
  end.

(** Express runs the handlers of a route in order; the last one is the
    route handler, reached only if every middleware called [next()]. *)
Inductive ChainResult := Responded (status : Z) (error : string) | Handled (req : Request).

Fixpoint run_chain (mws : list middleware) (req : Request) : ChainResult :=
  match mws with
  | [] => Handled req
  | mw :: rest =>
    match mw req with
    | Respond s e => Responded s e
    | Next req' => run_chain rest req'
    end
  end.

(** [app.get('/api/admin/dashboard', authenticateJWT, requireRole(['admin']),
    getDashboardData)]; [authenticateJWT] is not in the repository and is
    a parameter. *)
Definition dashboard_route (authenticateJWT : middleware) : list middleware :=
  [authenticateJWT; requireRole [admin]].

(** A JWT middleware that always sets a given user. *)
Definition jwt_as (u : JwtUser) : middleware := fun req => Next (mkRequest (Some u) (req_path req)).

End Auth.

(* ================================================================== *)
(** ** [useRealtimeMetrics] (section "Real-time Updates") *)
(* ================================================================== *)

Module RealtimeHook.
Section Hook.
Context {Data : Type}.

(** [metrics] (undefined at first) and whether the [EventSource] is open. *)
Record HookState := mkHook { metrics : option Data; source_open : bool }.

(** A message carries [JSON.parse(event.data)], [None] when the parse
    throws (then [setMetrics] is not reached); [Unmount] runs the cleanup
    [eventSource.close()]. *)
Inductive HookEvent := Message (parsed : option Data) | Unmount.

Definition mount : HookState := mkHook None true.

Definition on_event (st : HookState) (ev : HookEvent) : HookState :=
  match ev with
  | Message p =>
    if source_open st then
      match p with Some d => mkHook (Some d) true | None => st end
    else st
  | Unmount => mkHook (metrics st) false
  end.

Definition run_hook (evs : list HookEvent) : HookState := fold_left on_event evs mount.

End Hook.
End RealtimeHook.

(* ================================================================== *)
(** ** [metricsMiddleware] (section "Monitoring Setup") *)
(* ================================================================== *)

Module HttpMetrics.

(** [req.method], [req.route?.path] and [req.path]. *)
Record HttpReq := mkHttpReq { method : string; route_path : option string; path : string }.

(** [req.route?.path || req.path]: an undefined or empty route path falls
    back to [req.path]. *)
Definition route_label (req : HttpReq) : string :=
  match route_path req with
  | Some p => if String.eqb p "" then path req else p
  | None => path req
  end.

(** An observation of [http_request_duration_seconds]: labels
    (method, route, status code) and the value in seconds. *)
Record Observation := mkObs { obs_method : string; obs_route : string; obs_status : Z; obs_value : Q }.

Record MState := mkMState {
  clock : Z;                            (** [Date.now()], milliseconds *)
  listeners : gmap nat (HttpReq * Z);   (** pending ['finish'] handlers: request, [start] *)
  passed : list nat;                    (** requests passed on by [next()] *)
  histogram : list Observation }.

Inductive MEvent :=
| Incoming (id : nat) (req : HttpReq)  (** the middleware runs *)
| Finish (id : nat) (status : Z)       (** the response emits ['finish'] *)
| Tick                                 (** one millisecond passes *)
| ClockSet (t : Z).                    (** the wall clock read by [Date.now()] is set
                                           (NTP step, manual change); it may go back *)

Definition handle (st : MState) (ev : MEvent) : MState :=
  match ev with
  | Incoming id req =>
    mkMState (clock st) (<[id := (req, clock st)]> (listeners st)) (passed st ++ [id]) (histogram st)
  | Finish id status =>
    match listeners st !! id with
    | Some (req, start) =>
      mkMState (clock st) (delete id (listeners st)) (passed st)
               (histogram st ++ [mkObs (method req) (route_label req) status
                                       (inject_Z (clock st - start) / inject_Z 1000)%Q])
    | None => st
    end
  | Tick => mkMState (clock st + 1) (listeners st) (passed st) (histogram st)
  | ClockSet t => mkMState t (listeners st) (passed st) (histogram st)
  end.

(** Whether an event concerns request [id]. *)
Definition mentions (id : nat) (ev : MEvent) : bool :=
  match ev with
  | Incoming i _ | Finish i _ => Nat.eqb i id
  | _ => false
  end.

Definition run_events (st : MState) (evs : list MEvent) : MState := fold_left handle evs st.

End HttpMetrics.

(* ################################################################## *)
(** * Proofs *)
(* ################################################################## *)

Module MetricsFacts.
Import Metrics.

Lemma count_enrollments_acc sc es t c a :
  fold_left (fun acc e =>
               let '(t, c, a) := acc in
               if course_in_scope sc (enr_courseId e)
               then (S t, if is_completed e then S c else c, if is_active e then S a else a)
               else acc) es (t, c, a) =
  (t + length (filter (fun e => course_in_scope sc (enr_courseId e) = true) es),
   c + length (filter (fun e => is_completed e = true)
                (filter (fun e => course_in_scope sc (enr_courseId e) = true) es)),
   a + length (filter (fun e => is_active e = true)
                (filter (fun e => course_in_scope sc (enr_courseId e) = true) es)))%nat.
Proof.
  revert t c a. induction es as [|e es IH]; intros t c a; simpl.
  - rewrite !pair_equal_spec; repeat split; lia.
  - rewrite filter_cons.
    destruct (course_in_scope sc (enr_courseId e)) eqn:Hs.
    + rewrite decide_True by reflexivity. rewrite IH. simpl.
      rewrite !filter_cons.
      destruct (is_completed e), (is_active e); simpl;
        repeat first [rewrite decide_True by reflexivity | rewrite decide_False by discriminate];
        simpl; rewrite !pair_equal_spec; repeat split; lia.
    + rewrite decide_False by discriminate. apply IH.
Qed.

Lemma count_enrollments_spec sc es :
  count_enrollments sc es =
  (length (filter (fun e => course_in_scope sc (enr_courseId e) = true) es),
   length (filter (fun e => is_completed e = true)
             (filter (fun e => course_in_scope sc (enr_courseId e) = true) es)),
   length (filter (fun e => is_active e = true)
             (filter (fun e => course_in_scope sc (enr_courseId e) = true) es))).
Proof. unfold count_enrollments. rewrite count_enrollments_acc. reflexivity. Qed.

Lemma sum_ratings_acc s sc fs n sum :
  fold_left (fun acc f =>
               let '(n, sum) := acc in
               if feedback_in_scope s sc f then (S n, sum + fb_rating f)%Z else acc)
            fs (n, sum) =
  ((n + length (filter (fun f => feedback_in_scope s sc f = true) fs))%nat,
   (sum + sumZ (map fb_rating (filter (fun f => feedback_in_scope s sc f = true) fs)))%Z).
Proof.
  revert n sum. induction fs as [|f fs IH]; intros n sum; simpl.
  - f_equal; lia.
  - rewrite filter_cons.
    destruct (feedback_in_scope s sc f) eqn:Hs.
    + rewrite decide_True by reflexivity. rewrite IH. simpl. f_equal; lia.
    + rewrite decide_False by discriminate. apply IH.
Qed.

Lemma sum_ratings_spec s sc :
  sum_ratings s sc (st_feedback s) =
  (length (feedback_in s sc), sumZ (map fb_rating (feedback_in s sc))).
Proof. unfold sum_ratings. rewrite sum_ratings_acc. reflexivity. Qed.

Lemma aggregate_completionRate s sc :
  completionRate (aggregate s sc) =
  ratio (Z.of_nat (length (filter (fun e => is_completed e = true) (enrollments_in s sc))))
        (Z.of_nat (length (enrollments_in s sc))).
Proof.
  unfold aggregate. rewrite count_enrollments_spec.
  destruct (sum_ratings s sc (st_feedback s)). reflexivity.
Qed.

Lemma aggregate_averageSatisfaction s sc :
  averageSatisfaction (aggregate s sc) =
  ratio (sumZ (map fb_rating (feedback_in s sc))) (Z.of_nat (length (feedback_in s sc))).
Proof.
  unfold aggregate. rewrite count_enrollments_spec, sum_ratings_spec. reflexivity.
Qed.

(** C1: [completionRate] is [completed / total] over the enrollments in
    scope and [null] (not [0]) when the scope has no enrollment; a
    course with [completed x6, active x4] has rate [0.6]. *)
Theorem completionRate_correct :
  (forall (s : Store) (sc : scope),
      completionRate (aggregate s sc) =
      match enrollments_in s sc with
      | [] => None
      | es => Some (inject_Z (Z.of_nat (length (filter (fun e => is_completed e = true) es)))
                    / inject_Z (Z.of_nat (length es)))%Q
      end) /\
  completionRate (aggregate course_store (Course "c1")) = Some (6 # 10)%Q.
Proof.
  split.
  - intros s sc. rewrite aggregate_completionRate.
    destruct (enrollments_in s sc) as [|e es]; reflexivity.
  - vm_compute. reflexivity.
Qed.

(** C2: [averageSatisfaction] is the mean rating over the feedback rows
    in scope and [null] (not [0]) when there is none; ratings [5;4;3]
    give [4]. *)
Theorem averageSatisfaction_correct :
  (forall (s : Store) (sc : scope),
      averageSatisfaction (aggregate s sc) =
      match feedback_in s sc with
      | [] => None
      | fs => Some (inject_Z (sumZ (map fb_rating fs)) / inject_Z (Z.of_nat (length fs)))%Q
      end) /\
  map fb_rating (feedback_in course_store (Course "c1")) = [5; 4; 3]%Z /\
  (match averageSatisfaction (aggregate course_store (Course "c1")) with
   | Some q => q == 4
   | None => False
   end)%Q.
Proof.
  split; [|split].
  - intros s sc. rewrite aggregate_averageSatisfaction.
    destruct (feedback_in s sc) as [|f fs]; reflexivity.
  - reflexivity.
  - vm_compute. reflexivity.
Qed.

End MetricsFacts.

Module CacheFacts.
Import Metrics Cache.
Local Open Scope list_scope.

(** C3: two calls of [getCachedDashboardData("a")] on an empty cache
    whose [redis.get] both run before either [setex]: both call
    [generateDashboardData]. *)
Lemma no_single_flight :
  redis_get (init course_store) (cacheKey "a") = None /\
  exists st,
    exec (init course_store)
         [Spawn "a"; Spawn "a"; Run 0; Run 1; Run 0; Run 1; Run 0; Run 1] = Some st /\
    calls st = ["a"; "a"].
Proof. split; [reflexivity|]. eexists. split; vm_compute; reflexivity. Qed.

(** C4: a call already past [generateDashboardData] when the store is
    mutated and the key invalidated (at time 1) writes its snapshot of
    the old store back; the next call returns that snapshot, computed
    at time 0, before the invalidation. *)
Lemma stale_after_invalidate :
  exists st,
    exec (init course_store)
         [Spawn "a"; Run 0; Run 0; Tick; Mutate course_store'; Invalidate "a";
          Run 0; Spawn "a"; Run 1] = Some st /\
    tasks st !! 1%nat = Some (mkTask "a" (Returned (aggregate course_store Global) 0)) /\
    aggregate course_store Global <> aggregate course_store' Global.
Proof.
  eexists. split; [vm_compute; reflexivity|]. split; [vm_compute; reflexivity|].
  intros H. apply (f_equal averageSatisfaction) in H. vm_compute in H. discriminate.
Qed.

Lemma exec_app st l1 l2 :
  exec st (l1 ++ l2) = match exec st l1 with Some st' => exec st' l2 | None => None end.
Proof.
  revert st. induction l1 as [|a l1 IH]; intros st; simpl; [reflexivity|].
  destruct (step st a); [apply IH | reflexivity].
Qed.

Lemma cacheKey_inj a b : cacheKey a = cacheKey b -> a = b.
Proof. unfold cacheKey. simpl. intros H. by simplify_eq. Qed.

Lemma set_phase_lookup st i t p j y :
  set_phase st i t p !! j = Some y ->
  (j = i /\ y = mkTask (t_admin t) p) \/ (j <> i /\ tasks st !! j = Some y).
Proof.
  unfold set_phase. rewrite list_lookup_insert. case_decide as Hd.
  - intros Hy. left. destruct Hd as [-> _]. split; [done|]. by injection Hy.
  - intros Hy. right. split; [|done]. intros ->.
    apply Hd. split; [done|]. by apply lookup_lt_Some in Hy.
Qed.

Lemma redis_get_lookup st k e : redis_get st k = Some e -> redis st !! k = Some e.
Proof.
  unfold redis_get. destruct (redis st !! k) as [e'|]; [|done].
  destruct (Z.leb _ _); congruence.
Qed.

Lemma fresh_step a tinv n0 st act st' :
  fresh_since a tinv n0 st -> step st act = Some st' -> fresh_since a tinv n0 st'.
Proof.
  intros (Hnow & Hred & Hcomp & Hret) Hstep.
  destruct act as [x|i| |s|x]; simpl in Hstep; simplify_eq.
  - (* Spawn *)
    repeat split; simpl; [done|done| |].
    + intros i d c Hi. apply lookup_snoc_Some in Hi as [[_ Hi]|[_ Hi]]; [by eapply Hcomp|done].
    + intros i d c Hn Hi. apply lookup_snoc_Some in Hi as [[_ Hi]|[_ Hi]]; [by eapply Hret|done].
  - (* Run *)
    unfold run_task in Hstep.
    destruct (tasks st !! i) as [[ta tp]|] eqn:Ht; [|done]. simpl in Hstep.
    destruct tp as [| |d0 c0|d0 c0].
    + destruct (redis_get st (cacheKey ta)) as [e|] eqn:He; simplify_eq;
        repeat split; simpl; try done.
      * intros j d c Hj. apply set_phase_lookup in Hj as [[-> Hy]|[_ Hj]]; [done|].
        by eapply Hcomp.
      * intros j d c Hn Hj. apply set_phase_lookup in Hj as [[-> Hy]|[_ Hj]];
          [|by eapply Hret].
        simpl in Hy. injection Hy as -> -> ->.
        apply Hred. by apply redis_get_lookup.
      * intros j d c Hj. apply set_phase_lookup in Hj as [[-> Hy]|[_ Hj]]; [done|].
        by eapply Hcomp.
      * intros j d c Hn Hj. apply set_phase_lookup in Hj as [[-> Hy]|[_ Hj]]; [done|].
        by eapply Hret.
    + simplify_eq. repeat split; simpl; try done.
      * intros j d c Hj. apply set_phase_lookup in Hj as [[-> Hy]|[_ Hj]];
          [|by eapply Hcomp].
        simpl in Hy. injection Hy as -> -> ->. done.
      * intros j d c Hn Hj. apply set_phase_lookup in Hj as [[-> Hy]|[_ Hj]]; [done|].
        by eapply Hret.
    + simplify_eq. repeat split; simpl; try done.
      * intros e. rewrite lookup_insert. case_decide as Hk.
        -- intros He. injection He as <-. simpl.
           apply cacheKey_inj in Hk as ->. by eapply Hcomp.
        -- apply Hred.
      * intros j d c Hj. apply set_phase_lookup in Hj as [[-> Hy]|[_ Hj]]; [done|].
        by eapply Hcomp.
      * intros j d c Hn Hj. apply set_phase_lookup in Hj as [[-> Hy]|[_ Hj]];
          [|by eapply Hret].
        simpl in Hy. injection Hy as -> -> ->. by eapply Hcomp.
    + done.
  - (* Tick *) repeat split; simpl; try done. lia.
  - (* Mutate *) repeat split; done.
  - (* Invalidate *)
    repeat split; simpl; try done.
    intros e. rewrite lookup_delete. case_decide as E; [done|]. apply Hred.
Qed.

Lemma fresh_exec a tinv n0 st acts :
  fresh_since a tinv n0 st ->
  match exec st acts with Some st' => fresh_since a tinv n0 st' | None => True end.
Proof.
  revert st. induction acts as [|act acts IH]; intros st H; simpl; [done|].
  destruct (step st act) as [st1|] eqn:Hs; [|done].
  apply IH. by eapply fresh_step.
Qed.

(** C4 (amended): with [invalidate] modelled as deleting the key, a call
    issued after the invalidation returns a snapshot computed no earlier
    than the invalidation, for every interleaving that follows, provided
    no call of the same key was holding a computed result not yet written
    with [setex] when the invalidation ran. *)
Theorem get_after_invalidate (st : state) (a : string)
  (Hno_pending : forall i d c, tasks st !! i = Some (mkTask a (Computed d c)) -> False) :
  forall acts : list action,
    match exec (invalidate st a) acts with
    | Some st' =>
      forall i d c, (length (tasks st) <= i)%nat ->
        tasks st' !! i = Some (mkTask a (Returned d c)) -> (now st <= c)%Z
    | None => True
    end.
Proof.
  intros acts.
  assert (H0 : fresh_since a (now st) (length (tasks st)) (invalidate st a)).
  { repeat split; simpl.
    - lia.
    - by rewrite lookup_delete_eq.
    - intros i d c Hi. exfalso. by eapply Hno_pending.
    - intros i d c Hn Hi. apply lookup_lt_Some in Hi. lia. }
  pose proof (fresh_exec _ _ _ _ acts H0) as H.
  destruct (exec (invalidate st a) acts) as [st'|]; [|done].
  destruct H as (_ & _ & _ & Hret). exact Hret.
Qed.

Lemma get_after_invalidate_witness :
  (forall i d c, tasks warm_state !! i = Some (mkTask "a" (Computed d c)) -> False) /\
  is_Some (exec (invalidate warm_state "a")
                [Spawn "a"; Run 1; Run 2; Tick; Mutate course_store'; Run 1; Run 2; Run 1; Run 2]) /\
  match exec (invalidate warm_state "a")
             [Spawn "a"; Run 1; Run 2; Tick; Mutate course_store'; Run 1; Run 2; Run 1; Run 2] with
  | Some st' =>
    forall i d c, (length (tasks warm_state) <= i)%nat ->
      tasks st' !! i = Some (mkTask "a" (Returned d c)) -> (now warm_state <= c)%Z
  | None => True
  end.
Proof.
  split; [|split].
  - intros [|[|i]] d c H; vm_compute in H; discriminate.
  - vm_compute. eexists. reflexivity.
  - apply get_after_invalidate. intros [|[|i]] d c H; vm_compute in H; discriminate.
Defined.

Lemma filter_len_mono (f g : nat -> bool) (L : list nat) :
  (forall i, i ∈ L -> g i = true -> f i = true) ->
  (length (List.filter g L) <= length (List.filter f L))%nat.
Proof.
  induction L as [|x L IH]; intros H; simpl; [lia|].
  assert (IH' : (length (List.filter g L) <= length (List.filter f L))%nat).
  { apply IH. intros i Hi. apply H. by apply list_elem_of_further. }
  destruct (g x) eqn:Hg.
  - rewrite (H x (list_elem_of_here _ _) Hg). simpl. lia.
  - destruct (f x); simpl; lia.
Qed.

Lemma filter_len_mono1 (f g : nat -> bool) (L : list nat) (j : nat) :
  NoDup L ->
  (forall i, i ∈ L -> i <> j -> g i = true -> f i = true) ->
  (length (List.filter g L) <= S (length (List.filter f L)))%nat.
Proof.
  induction L as [|x L IH]; intros Hnd H; simpl; [lia|].
  apply NoDup_cons in Hnd as [Hx Hnd].
  destruct (decide (x = j)) as [->|Hne].
  - assert (Hle : (length (List.filter g L) <= length (List.filter f L))%nat).
    { apply filter_len_mono. intros i Hi. apply H; [by apply list_elem_of_further|].
      intros ->. done. }
    destruct (g j), (f j); simpl; lia.
  - assert (IH' : (length (List.filter g L) <= S (length (List.filter f L)))%nat).
    { apply IH; [done|]. intros i Hi. apply H. by apply list_elem_of_further. }
    destruct (g x) eqn:Hg.
    + rewrite (H x (list_elem_of_here _ _) Hne Hg). simpl. lia.
    + destruct (f x); simpl; lia.
Qed.

(** Calls past their read, for the tracked key [a]: at [Miss] or later. *)
Definition read_missed (a : string) (L : list nat) (st : state) : Prop :=
  Forall (fun i => exists p, tasks st !! i = Some (mkTask a p) /\ p <> Start) L.

Lemma per_caller_step st a L act st' :
  NoDup L -> read_missed a L st -> step st act = Some st' ->
  read_missed a L st' /\
  (count_calls a st + length (List.filter (fun i => past_miss a (tasks st' !! i)) L)
   <= count_calls a st' + length (List.filter (fun i => past_miss a (tasks st !! i)) L))%nat.
Proof.
  intros Hnd Hrm Hstep. unfold read_missed in *. rewrite Forall_forall in Hrm.
  assert (Hsame : forall n0 d0 r0 ts cs,
    (forall i, i ∈ L -> ts !! i = tasks st !! i) ->
    read_missed a L (mkState n0 d0 r0 ts cs) /\
    (length (List.filter (fun i => past_miss a (ts !! i)) L)
     = length (List.filter (fun i => past_miss a (tasks st !! i)) L))%nat).
  { intros n0 d0 r0 ts cs Hts. split.
    - apply Forall_forall. intros i Hi. simpl. rewrite Hts by done. by apply Hrm.
    - f_equal. apply List.filter_ext_in. intros i Hi. rewrite Hts; [done|].
      by apply list_elem_of_In. }
  destruct act as [x|j| |s|x]; simpl in Hstep; simplify_eq.
  - (* Spawn *)
    destruct (Hsame (now st) (db st) (redis st) (tasks st ++ [mkTask x Start]) (calls st))
      as [H1 H2].
    { intros i Hi. destruct (Hrm i Hi) as (p & Hp & _).
      rewrite Hp. by apply lookup_app_l_Some. }
    split; [done|]. unfold count_calls in *. simpl. lia.
  - (* Run *)
    unfold run_task in Hstep.
    destruct (tasks st !! j) as [[b p]|] eqn:Ht; [|done]. simpl in Hstep.
    assert (Hother : forall q i, i <> j ->
              set_phase st j (mkTask b p) q !! i = tasks st !! i).
    { intros q i Hij. unfold set_phase. by apply list_lookup_insert_ne. }
    assert (Hhere : forall q, set_phase st j (mkTask b p) q !! j = Some (mkTask b q)).
    { intros q. unfold set_phase. rewrite list_lookup_insert. case_decide as E; [done|].
      exfalso. apply E. split; [done|]. by apply lookup_lt_Some in Ht. }
    destruct (decide (j ∈ L)) as [Hj|Hj].
    + destruct (Hrm j Hj) as (p0 & Hp0 & Hns). rewrite Ht in Hp0. injection Hp0 as -> ->.
      assert (Hrm' : forall q, q <> Start -> forall n0 d0 r0 ts cs,
                ts = set_phase st j (mkTask a p0) q ->
                read_missed a L (mkState n0 d0 r0 ts cs)).
      { intros q Hq n0 d0 r0 ts cs ->. apply Forall_forall. intros i Hi. simpl.
        destruct (decide (i = j)) as [->|Hij].
        - rewrite Hhere. by exists q.
        - rewrite Hother by done. by apply Hrm. }
      destruct p0 as [| |d c|d c]; [done| | |done]; simplify_eq.
      * (* Miss: generateDashboardData runs *)
        split; [apply (Hrm' (Computed (generateDashboardData (db st) a) (now st)));
                [discriminate|reflexivity]|].
        unfold count_calls. cbn [tasks calls]. rewrite List.filter_app, length_app.
        simpl. rewrite String.eqb_refl. simpl.
        pose proof (filter_len_mono1 (fun i => past_miss a (tasks st !! i))
                      (fun i => past_miss a (set_phase st j (mkTask a Miss)
                                   (Computed (generateDashboardData (db st) a) (now st)) !! i))
                      L j Hnd) as Hle.
        assert (Hc : (length (List.filter (fun i => past_miss a (set_phase st j (mkTask a Miss)
                        (Computed (generateDashboardData (db st) a) (now st)) !! i)) L)
                     <= S (length (List.filter (fun i => past_miss a (tasks st !! i)) L)))%nat).
        { apply Hle. intros i _ Hij. by rewrite Hother. }
        lia.
      * (* Computed: setex *)
        split; [apply (Hrm' (Returned d c)); [discriminate|reflexivity]|].
        cbn [tasks]. unfold count_calls. cbn [calls].
        assert (Hc := filter_len_mono (fun i => past_miss a (tasks st !! i))
                      (fun i => past_miss a (set_phase st j (mkTask a (Computed d c))
                                   (Returned d c) !! i)) L).
        assert (Hc' : (length (List.filter (fun i => past_miss a (set_phase st j (mkTask a (Computed d c))
                                   (Returned d c) !! i)) L)
                 <= length (List.filter (fun i => past_miss a (tasks st !! i)) L))%nat).
        { apply Hc. intros i _. destruct (decide (i = j)) as [->|Hij].
          - rewrite Ht. simpl. by rewrite String.eqb_refl.
          - by rewrite Hother. }
        lia.
    + assert (Hts : forall q i, i ∈ L -> set_phase st j (mkTask b p) q !! i = tasks st !! i).
      { intros q i Hi. apply Hother. intros ->. done. }
      destruct p as [| |d c|d c]; [|simplify_eq|simplify_eq|done].
      * destruct (redis_get st (cacheKey b)) as [e|]; simplify_eq.
        -- destruct (Hsame (now st) (db st) (redis st)
                       (set_phase st j (mkTask b Start) (Returned (ent_val e) (ent_at e)))
                       (calls st)) as [H1 H2]; [intros i Hi; by apply Hts|].
           split; [exact H1|]. unfold count_calls. cbn [tasks calls]. rewrite H2. lia.
        -- destruct (Hsame (now st) (db st) (redis st) (set_phase st j (mkTask b Start) Miss)
                       (calls st)) as [H1 H2]; [intros i Hi; by apply Hts|].
           split; [exact H1|]. unfold count_calls. cbn [tasks calls]. rewrite H2. lia.
      * destruct (Hsame (now st) (db st) (redis st) (set_phase st j (mkTask b Miss)
                     (Computed (generateDashboardData (db st) b) (now st))) (calls st ++ [b]))
          as [H1 H2]; [intros i Hi; by apply Hts|].
        split; [done|].
        unfold count_calls. cbn [tasks calls]. rewrite List.filter_app, length_app.
        rewrite H2. lia.
      * destruct (Hsame (now st) (db st) (<[cacheKey b := mkEntry d c (now st + 300)]> (redis st))
                        (set_phase st j (mkTask b (Computed d c)) (Returned d c)) (calls st))
          as [H1 H2]; [intros i Hi; by apply Hts|].
        split; [exact H1|]. unfold count_calls in *. cbn [tasks calls]. rewrite H2. lia.
  - (* Tick *)
    destruct (Hsame (now st + 1)%Z (db st) (redis st) (tasks st) (calls st)) as [H1 _]; [done|].
    split; [exact H1|]. unfold count_calls. simpl. lia.
  - (* Mutate *)
    split; [apply Forall_forall; exact Hrm|]. unfold count_calls. simpl. lia.
  - (* Invalidate *)
    split; [apply Forall_forall; exact Hrm|]. unfold count_calls. simpl. lia.
Qed.

(** C3 (amended): there is no single-flight. A call whose [redis.get]
    found no live entry ([Miss]) always runs [generateDashboardData]
    itself when it resumes, whatever the other calls do meanwhile. So
    for any set [L] of such calls for key [a], under every interleaving
    of the remaining steps (other calls, [setex] of other calls, clock,
    store changes, invalidations), each call of [L] past its
    [await generateDashboardData] accounts for one more invocation
    [generateDashboardData(a)]; once all of [L] have returned, there were
    at least [length L] invocations, not one. *)
Theorem cache_compute_per_caller (st : state) (a : string) (L : list nat)
  (HS : NoDup L) (Hmiss : Forall (fun i => tasks st !! i = Some (mkTask a Miss)) L)
  (acts : list action) :
  match exec st acts with
  | Some st' =>
    (count_calls a st + length (List.filter (fun i => past_miss a (tasks st' !! i)) L)
       <= count_calls a st')%nat /\
    (Forall (fun i => exists d c, tasks st' !! i = Some (mkTask a (Returned d c))) L ->
     (count_calls a st + length L <= count_calls a st')%nat)
  | None => True
  end.
Proof.
  assert (Hinv : forall acts st0,
    read_missed a L st0 ->
    match exec st0 acts with
    | Some st' =>
      (count_calls a st0 + length (List.filter (fun i => past_miss a (tasks st' !! i)) L)
       <= count_calls a st' + length (List.filter (fun i => past_miss a (tasks st0 !! i)) L))%nat
    | None => True
    end).
  { induction acts0 as [|act acts0 IH]; intros st0 Hrm; simpl; [lia|].
    destruct (step st0 act) as [st1|] eqn:Hs; [|done].
    destruct (per_caller_step st0 a L act st1 HS Hrm Hs) as [Hrm1 Hle1].
    specialize (IH st1 Hrm1). destruct (exec st1 acts0); [|done]. lia. }
  assert (Hrm : read_missed a L st).
  { unfold read_missed. rewrite Forall_forall in Hmiss |- *. intros i Hi.
    exists Miss. split; [by apply Hmiss|done]. }
  assert (H0 : length (List.filter (fun i => past_miss a (tasks st !! i)) L) = 0%nat).
  { rewrite Forall_forall in Hmiss.
    rewrite (List.filter_ext_in _ (fun _ => false)); [by rewrite List.filter_false|].
    intros i Hi. rewrite Hmiss; [done|]. by apply list_elem_of_In. }
  specialize (Hinv acts st Hrm). destruct (exec st acts) as [st'|]; [|done].
  rewrite H0 in Hinv. split; [lia|].
  intros Hret. rewrite Forall_forall in Hret.
  rewrite (List.filter_ext_in _ (fun _ => true)) in Hinv; [rewrite List.filter_true in Hinv; lia|].
  intros i Hi. apply list_elem_of_In in Hi. destruct (Hret i Hi) as (d & c & ->).
  simpl. apply String.eqb_refl.
Qed.

Lemma cache_compute_per_caller_witness :
  NoDup [0; 1]%nat /\
  Forall (fun i => tasks two_missed !! i = Some (mkTask "a" Miss)) [0; 1]%nat /\
  is_Some (exec two_missed [Run 0; Spawn "b"; Tick; Run 2; Run 0; Mutate course_store';
                            Run 2; Run 1; Run 2; Run 1]) /\
  match exec two_missed [Run 0; Spawn "b"; Tick; Run 2; Run 0; Mutate course_store';
                         Run 2; Run 1; Run 2; Run 1] with
  | Some st' =>
    (count_calls "a" two_missed
       + length (List.filter (fun i => past_miss "a" (tasks st' !! i)) [0; 1]%nat)
       <= count_calls "a" st')%nat /\
    (Forall (fun i => exists d c, tasks st' !! i = Some (mkTask "a" (Returned d c))) [0; 1]%nat ->
     (count_calls "a" two_missed + length [0; 1]%nat <= count_calls "a" st')%nat)
  | None => True
  end.
Proof.
  assert (Hnd : NoDup [0; 1]%nat) by (repeat constructor; set_solver).
  assert (Hm : Forall (fun i => tasks two_missed !! i = Some (mkTask "a" Miss)) [0; 1]%nat)
    by (repeat constructor).
  split; [exact Hnd|]. split; [exact Hm|]. split; [vm_compute; eexists; reflexivity|].
  exact (cache_compute_per_caller two_missed "a" [0; 1]%nat Hnd Hm
           [Run 0; Spawn "b"; Tick; Run 2; Run 0; Mutate course_store'; Run 2; Run 1; Run 2; Run 1]).
Defined.

End CacheFacts.

Module ReportFacts.
Import Reports.
Local Open Scope list_scope.

Lemma ids_known_spec known ids :
  ids_known known ids = true <->
  (forall l, ids = Some l -> Forall (fun x => x ∈ known) l).
Proof.
  destruct ids as [l|]; simpl.
  - rewrite forallb_forall. split.
    + intros H l' [= <-]. apply Forall_forall. intros x Hx.
      apply (bool_decide_eq_true_1 (x ∈ known)). apply H. by apply list_elem_of_In.
    + intros H x Hx. apply bool_decide_eq_true_2.
      apply (proj1 (Forall_forall _ l) (H l eq_refl)). by apply list_elem_of_In.
  - split; [|done]. intros _ l' [=].
Qed.

(** C5: a request is validated before anything is stored: if
    [start > end] or a filter id is unknown it fails with
    [ValidationError] and the state, hence the report store, is left
    unchanged; otherwise one [pending] report is created under the
    returned id. *)
Theorem generate_validates (st : RState) (req : ReportRequest) :
  let valid :=
    (range_start (dateRange req) <= range_end (dateRange req))%Z /\
    (forall l, courseIds (filters req) = Some l -> Forall (fun x => x ∈ known_courses st) l) /\
    (forall l, userIds (filters req) = Some l -> Forall (fun x => x ∈ known_users st) l) in
  match generate st req with
  | (inl err, st') => ~ valid /\ (exists msg, err = ValidationError msg) /\ st' = st
  | (inr id, st') =>
    valid /\ id = next_id st /\ next_id st' = S id /\
    reports st' = <[id := mkReport id req pending None None (clock st) (clock st + report_ttl st)]>
                    (reports st)
  end.
Proof.
  intros valid. unfold generate, validate, valid.
  destruct (Z.leb_spec (range_start (dateRange req)) (range_end (dateRange req))) as [Hle|Hlt];
    simpl.
  - destruct (ids_known (known_courses st) (courseIds (filters req))) eqn:Hc; simpl.
    + destruct (ids_known (known_users st) (userIds (filters req))) eqn:Hu; simpl.
      * pose proof (proj1 (ids_known_spec _ _) Hc). pose proof (proj1 (ids_known_spec _ _) Hu).
        repeat split; auto.
      * split; [|split; [eexists; reflexivity|reflexivity]].
        intros (_ & _ & Hu'). pose proof (proj2 (ids_known_spec _ _) Hu'). congruence.
    + split; [|split; [eexists; reflexivity|reflexivity]].
      intros (_ & Hc' & _). pose proof (proj2 (ids_known_spec _ _) Hc'). congruence.
  - split; [|split; [eexists; reflexivity|reflexivity]].
    intros (Hle & _). lia.
Qed.

Lemma step_ok_same st : ids_below st -> step_ok st st.
Proof.
  intros Hids. split; [done|]. split; [lia|]. intros id r2 H. left. exists r2. split; [done|constructor].
Qed.

Lemma step_ok_update st id0 r r' :
  ids_below st -> reports st !! id0 = Some r -> status_step (r_status r) (r_status r') ->
  step_ok st (with_reports st (<[id0 := r']> (reports st)) (next_id st)).
Proof.
  intros Hids Hr Hs. split; [|split; [simpl; lia|]].
  - intros id r2. simpl. rewrite lookup_insert. case_decide as E.
    + intros _. subst. by eapply Hids.
    + apply Hids.
  - intros id r2. simpl. rewrite lookup_insert. case_decide as E.
    + intros [= <-]. subst. left. eauto.
    + intros H. left. exists r2. split; [done|constructor].
Qed.

Lemma step_ok_delete st id0 :
  ids_below st -> step_ok st (with_reports st (delete id0 (reports st)) (next_id st)).
Proof.
  intros Hids. split; [|split; [simpl; lia|]].
  - intros id r2. simpl. rewrite lookup_delete. case_decide as E; [done|]. apply Hids.
  - intros id r2. simpl. rewrite lookup_delete. case_decide as E; [done|].
    intros H. left. exists r2. split; [done|constructor].
Qed.

Lemma step_preserves st a : ids_below st -> step_ok st (step st a).
Proof.
  intros Hids. destruct a as [req|id0|id0 o|id0|]; simpl.
  - unfold generate. destruct (validate st req); simpl; [by apply step_ok_same|].
    split; [|split; [simpl; lia|]].
    + intros id r2. simpl. rewrite lookup_insert. case_decide as E.
      * intros _. subst. lia.
      * intros H. apply Hids in H. lia.
    + intros id r2. simpl. rewrite lookup_insert. case_decide as E.
      * intros _. subst. right. split; [|lia].
        destruct (reports st !! next_id st) as [r|] eqn:Hr; [|done].
        apply Hids in Hr. lia.
      * intros H. left. exists r2. split; [done|constructor].
  - unfold begin_generation.
    destruct (reports st !! id0) as [r|] eqn:Hr; [|by apply step_ok_same].
    destruct (r_status r) eqn:Hs; try by apply step_ok_same.
    destruct (expired st r); [by apply step_ok_same|].
    apply step_ok_update with r; [done|done|]. rewrite Hs. constructor.
  - unfold finish_generation.
    destruct (reports st !! id0) as [r|] eqn:Hr; [|by apply step_ok_same].
    destruct (r_status r) eqn:Hs; try by apply step_ok_same.
    destruct (expired st r); [by apply step_ok_same|].
    apply step_ok_update with r; [done|done|]. rewrite Hs.
    destruct o; constructor.
  - unfold evict.
    destruct (reports st !! id0) as [r|] eqn:Hr; [|by apply step_ok_same].
    destruct (expired st r); [by apply step_ok_delete|by apply step_ok_same].
  - apply (step_ok_same st Hids).
Qed.

Lemma trace_ids st acts i st1 :
  ids_below st -> trace st acts !! i = Some st1 -> ids_below st1.
Proof.
  revert st i. induction acts as [|a acts IH]; intros st i Hids Hi.
  - destruct i; simpl in Hi; [by injection Hi as <-|done].
  - destruct i as [|i]; simpl in Hi; [by injection Hi as <-|].
    eapply IH; [|exact Hi]. apply (step_preserves st a Hids).
Qed.

Lemma trace_shift st acts i st1 :
  trace st acts !! i = Some st1 ->
  exists post, forall k, trace st acts !! (i + k)%nat = trace st1 post !! k.
Proof.
  revert st i. induction acts as [|a acts IH]; intros st i Hi.
  - destruct i; simpl in Hi; [|done]. injection Hi as <-. by exists [].
  - destruct i as [|i]; simpl in Hi.
    + injection Hi as <-. by exists (a :: acts).
    + apply IH in Hi as [post Hp]. exists post. intros k. apply Hp.
Qed.

Lemma trace_next st1 post st2 :
  trace st1 post !! 1%nat = Some st2 -> exists a, st2 = step st1 a.
Proof.
  destruct post as [|a post]; simpl; [done|].
  destruct post; simpl; intros [= <-]; eauto.
Qed.

Lemma trace_reach st acts id s1 k st2 :
  ids_below st -> (id < next_id st)%nat ->
  (reports st !! id = None \/
   exists r, reports st !! id = Some r /\ rtc status_step s1 (r_status r)) ->
  trace st acts !! k = Some st2 ->
  reports st2 !! id = None \/
  exists r, reports st2 !! id = Some r /\ rtc status_step s1 (r_status r).
Proof.
  revert st k. induction acts as [|a acts IH]; intros st k Hids Hlt HP Hk.
  - destruct k; simpl in Hk; [by injection Hk as <-|done].
  - destruct k as [|k]; simpl in Hk; [by injection Hk as <-|].
    destruct (step_preserves st a Hids) as (Hids' & Hmono & Hstep).
    eapply IH; [exact Hids'|lia| |exact Hk].
    destruct (reports (step st a) !! id) as [r2|] eqn:Hr2; [right|by left].
    exists r2. split; [done|].
    destruct (Hstep id r2 Hr2) as [(r1 & Hr1 & Hs)|(_ & Hle)]; [|lia].
    destruct HP as [HP|(r & Hr & Hrtc)]; [congruence|].
    rewrite Hr1 in Hr. injection Hr as <-.
    eapply rtc_r; [exact Hrtc|exact Hs].
Qed.

(** C6: along every execution from a store whose ids are below the
    counter, a report's status changes only by [pending -> generating],
    [generating -> ready] or [generating -> failed] from one state to the
    next, and over any stretch of the execution it only moves forward
    along those steps (an evicted id is never reused). *)
Theorem report_status_transitions (st : RState) (acts : list action)
  (Hids : ids_below st) (id : nat) :
  (forall i st1 st2 r1 r2,
      trace st acts !! i = Some st1 -> trace st acts !! S i = Some st2 ->
      reports st1 !! id = Some r1 -> reports st2 !! id = Some r2 ->
      status_step (r_status r1) (r_status r2)) /\
  (forall i j st1 st2 r1 r2, (i <= j)%nat ->
      trace st acts !! i = Some st1 -> trace st acts !! j = Some st2 ->
      reports st1 !! id = Some r1 -> reports st2 !! id = Some r2 ->
      rtc status_step (r_status r1) (r_status r2)).
Proof.
  split.
  - intros i st1 st2 r1 r2 H1 H2 Hr1 Hr2.
    pose proof (trace_ids _ _ _ _ Hids H1) as Hids1.
    destruct (trace_shift _ _ _ _ H1) as [post Hp].
    rewrite <- Nat.add_1_r, Hp in H2.
    destruct (trace_next _ _ _ H2) as [a ->].
    destruct (step_preserves st1 a Hids1) as (_ & _ & Hs).
    destruct (Hs id r2 Hr2) as [(r1' & Hr1' & Hst)|(Hn & _)]; [|congruence].
    rewrite Hr1 in Hr1'. by injection Hr1' as <-.
  - intros i j st1 st2 r1 r2 Hij H1 H2 Hr1 Hr2.
    pose proof (trace_ids _ _ _ _ Hids H1) as Hids1.
    destruct (trace_shift _ _ _ _ H1) as [post Hp].
    replace j with (i + (j - i))%nat in H2 by lia. rewrite Hp in H2.
    destruct (trace_reach st1 post id (r_status r1) (j - i) st2 Hids1) as [Hn|(r & Hr & Hrtc)].
    + by eapply Hids1.
    + right. exists r1. split; [done|constructor].
    + exact H2.
    + congruence.
    + rewrite Hr2 in Hr. by injection Hr as <-.
Qed.

Lemma report_status_transitions_witness :
  ids_below rs0 /\
  trace rs0 [Request req_ok; Begin 0; Tick; Finish 0 (inl "payload"); Request req_backwards]
    !! 4%nat = Some (exec rs0 [Request req_ok; Begin 0; Tick; Finish 0 (inl "payload")]) /\
  ((forall i st1 st2 r1 r2,
      trace rs0 [Request req_ok; Begin 0; Tick; Finish 0 (inl "payload"); Request req_backwards]
        !! i = Some st1 ->
      trace rs0 [Request req_ok; Begin 0; Tick; Finish 0 (inl "payload"); Request req_backwards]
        !! S i = Some st2 ->
      reports st1 !! 0%nat = Some r1 -> reports st2 !! 0%nat = Some r2 ->
      status_step (r_status r1) (r_status r2)) /\
   (forall i j st1 st2 r1 r2, (i <= j)%nat ->
      trace rs0 [Request req_ok; Begin 0; Tick; Finish 0 (inl "payload"); Request req_backwards]
        !! i = Some st1 ->
      trace rs0 [Request req_ok; Begin 0; Tick; Finish 0 (inl "payload"); Request req_backwards]
        !! j = Some st2 ->
      reports st1 !! 0%nat = Some r1 -> reports st2 !! 0%nat = Some r2 ->
      rtc status_step (r_status r1) (r_status r2))).
Proof.
  split; [|split].
  - intros id r H. vm_compute in H. discriminate.
  - vm_compute. reflexivity.
  - apply report_status_transitions. intros id r H. vm_compute in H. discriminate.
Defined.

End ReportFacts.

Module BroadcastFacts.
Import Metrics Broadcast.
Local Open Scope list_scope.

(** After a run of publications the slot of [sid] holds the last snapshot
    published for its scope, or what it held before if there was none. *)
Lemma publish_all_slot (st : BState) (sid : string) (sub : Subscription)
      (pubs : list (scope * Snapshot)) :
  registry st !! sid = Some sub ->
  registry (publish_all pubs st) !! sid =
  Some (mkSub (sub_scope sub)
              (match last (map snd (filter (fun p => scope_eqb (sub_scope sub) (fst p) = true) pubs)) with
               | Some s => Some s
               | None => sub_pending sub
               end)).
Proof.
  intros Hsub. induction pubs as [|[sc s] pubs IH] using rev_ind.
  - simpl. rewrite Hsub. by destruct sub.
  - unfold publish_all in *. rewrite fold_left_app. simpl.
    rewrite lookup_fmap, IH. simpl.
    rewrite filter_app, map_app, last_app. simpl. rewrite filter_cons, filter_nil.
    destruct (scope_eqb (sub_scope sub) sc) eqn:E.
    + rewrite decide_True by done. simpl. reflexivity.
    + rewrite decide_False by (simpl; rewrite E; discriminate). simpl. reflexivity.
Qed.

(** C8: one pending slot per subscriber, coalescing. Whatever number of
    snapshots is published for the subscriber's scope before its channel
    drains, the drain emits exactly one snapshot, the last one, and leaves
    the slot empty. *)
Theorem coalescing (st : BState) (sid : string) (sub : Subscription)
  (pubs : list (scope * Snapshot)) (snap : Snapshot)
  (Hsub : registry st !! sid = Some sub)
  (Hlast : last (map snd (filter (fun p => scope_eqb (sub_scope sub) (fst p) = true) pubs))
           = Some snap) :
  emitted (deliver sid true (publish_all pubs st)) = emitted st ++ [(sid, snap)] /\
  registry (deliver sid true (publish_all pubs st)) !! sid = Some (mkSub (sub_scope sub) None).
Proof.
  pose proof (publish_all_slot st sid sub pubs Hsub) as Hs. rewrite Hlast in Hs.
  unfold deliver. rewrite Hs. simpl.
  assert (Hem : emitted (publish_all pubs st) = emitted st).
  { unfold publish_all. clear Hs Hlast Hsub. revert st.
    induction pubs as [|p pubs IH]; intros st; [done|].
    simpl. by rewrite IH. }
  rewrite Hem. split; [done|]. apply lookup_insert_eq.
Qed.

Lemma coalescing_witness :
  registry bs0 !! "s1" = Some (mkSub (Course "c1") None) /\
  last (map snd (filter (fun p => scope_eqb (Course "c1") (fst p) = true)
                        [(Course "c1", snapA); (Global, snapA); (Course "c1", snapB)]))
    = Some snapB /\
  emitted (deliver "s1" true
             (publish_all [(Course "c1", snapA); (Global, snapA); (Course "c1", snapB)] bs0))
    = emitted bs0 ++ [("s1", snapB)] /\
  registry (deliver "s1" true
             (publish_all [(Course "c1", snapA); (Global, snapA); (Course "c1", snapB)] bs0))
    !! "s1" = Some (mkSub (Course "c1") None).
Proof.
  split; [reflexivity|]. split; [reflexivity|].
  apply (coalescing bs0 "s1" (mkSub (Course "c1") None)); reflexivity.
Defined.

End BroadcastFacts.

Module RiskFacts.
Import Risk.
Local Open Scope Q_scope.

(** When a user without ratings counts as having given the lowest rating,
    the example user (40 days inactive, completion 0.1) is [high] for
    every choice of non-negative weights summing to 1. *)
Lemma example_high_if_no_rating_is_worst (a b c : Q) :
  0 <= a -> 0 <= b -> 0 <= c -> a + b + c == 1 ->
  classify (config a b c 0) (Some 40) (1 # 10) None = high.
Proof.
  intros Ha Hb Hc Hs. unfold classify, band, score, inactivityScore, normalizedRating. simpl.
  assert (H : 66 # 100 <= a * 1 + b * (1 - (1 # 10)) + c * (1 - 0)) by lra.
  assert (H' : 33 # 100 <= a * 1 + b * (1 - (1 # 10)) + c * (1 - 0)) by lra.
  apply Qle_bool_iff in H, H'. now rewrite H', H.
Qed.

(** With the weight on the rating term and a user without ratings
    counting as having given the best rating, the same user is [low]. *)
Lemma example_low_if_no_rating_is_best :
  classify (config 0 0 1 1) (Some 40) (1 # 10) None = low.
Proof. vm_compute. reflexivity. Qed.

End RiskFacts.

Module SchemaFacts.
Import Schema.

(** C9: the [enrollments] table has no [UNIQUE(user_id, course_id)]:
    two enrollments of [u1] in [c1] are both accepted, while the sibling
    table [user_module_progress], which declares
    [UNIQUE(user_id, module_id)], refuses the second row of a pair. *)
Theorem enrollments_accept_duplicate_pair :
  match insert_enrollment db0 (enr "e1") with
  | Some db1 =>
    match insert_enrollment db1 (enr "e2") with
    | Some db2 => enrollments_of db2 "u1" "c1" = 2%nat
    | None => False
    end
  | None => False
  end /\
  match insert_progress db0 (prog "p1") with
  | Some db1 => insert_progress db1 (prog "p2") = None /\ progress_of db1 "u1" "m1" = 1%nat
  | None => False
  end.
Proof. vm_compute. split; [reflexivity|split; reflexivity]. Qed.

End SchemaFacts.

Module AIServiceFacts.
Import AIService.

(** C10: [generateFromPrompt] resolves to the fixed prefix followed by
    the prompt; the result depends on the prompt only, not on the
    service object. *)
Theorem generateFromPrompt_spec :
  (forall (self : AIService) (prompt : string),
      generateFromPrompt self prompt = Resolved ("Genereret kode baseret på: " ++ prompt)) /\
  (forall (self1 self2 : AIService) (prompt : string),
      generateFromPrompt self1 prompt = generateFromPrompt self2 prompt).
Proof. split; intros; reflexivity. Qed.

End AIServiceFacts.

Module CacheMoreFacts.
Import Metrics Cache.
Local Open Scope list_scope.

Lemma lookup_last {A} (l : list A) x : (l ++ [x]) !! length l = Some x.
Proof. by apply list_lookup_middle. Qed.

Lemma insert_last {A} (l : list A) x y : <[length l := y]> (l ++ [x]) = l ++ [y].
Proof. rewrite insert_app_r_alt by lia. by rewrite Nat.sub_diag. Qed.

Lemma exec_ticks st k :
  exec st (repeat Tick k) =
  Some (mkState (now st + Z.of_nat k) (db st) (redis st) (tasks st) (calls st)).
Proof.
  revert st. induction k as [|k IH]; intros st; simpl.
  - destruct st; simpl. by rewrite Z.add_0_r.
  - rewrite IH. simpl.
    replace (now st + 1 + Z.of_nat k)%Z with (now st + Z.of_nat (S k))%Z by lia.
    reflexivity.
Qed.

Lemma run_start_miss st a ts :
  tasks st = ts ++ [mkTask a Start] -> redis_get st (cacheKey a) = None ->
  run_task st (length ts) =
  Some (mkState (now st) (db st) (redis st) (ts ++ [mkTask a Miss]) (calls st)).
Proof.
  intros Ht Hm. unfold run_task, set_phase. rewrite Ht, lookup_last. simpl.
  rewrite Hm, insert_last. reflexivity.
Qed.

Lemma run_start_hit st a ts e :
  tasks st = ts ++ [mkTask a Start] -> redis_get st (cacheKey a) = Some e ->
  run_task st (length ts) =
  Some (mkState (now st) (db st) (redis st) (ts ++ [mkTask a (Returned (ent_val e) (ent_at e))])
                (calls st)).
Proof.
  intros Ht Hh. unfold run_task, set_phase. rewrite Ht, lookup_last. simpl.
  rewrite Hh, insert_last. reflexivity.
Qed.

Lemma run_miss st a ts :
  tasks st = ts ++ [mkTask a Miss] ->
  run_task st (length ts) =
  Some (mkState (now st) (db st) (redis st)
                (ts ++ [mkTask a (Computed (generateDashboardData (db st) a) (now st))])
                (calls st ++ [a])).
Proof.
  intros Ht. unfold run_task, set_phase. rewrite Ht, lookup_last. simpl.
  rewrite insert_last. reflexivity.
Qed.

Lemma run_computed st a ts d c :
  tasks st = ts ++ [mkTask a (Computed d c)] ->
  run_task st (length ts) =
  Some (mkState (now st) (db st) (<[cacheKey a := mkEntry d c (now st + 300)]> (redis st))
                (ts ++ [mkTask a (Returned d c)]) (calls st)).
Proof.
  intros Ht. unfold run_task, set_phase. rewrite Ht, lookup_last. simpl.
  rewrite insert_last. reflexivity.
Qed.

(** One call of [getCachedDashboardData(a)] run to completion on a cache
    without a live entry for [a]: it computes once and stores the result
    for 300 seconds. *)
Lemma exec_first_call st a :
  redis_get st (cacheKey a) = None ->
  exec st [Spawn a; Run (length (tasks st)); Run (length (tasks st)); Run (length (tasks st))] =
  Some (mkState (now st) (db st)
          (<[cacheKey a := mkEntry (generateDashboardData (db st) a) (now st) (now st + 300)]>
             (redis st))
          (tasks st ++ [mkTask a (Returned (generateDashboardData (db st) a) (now st))])
          (calls st ++ [a])).
Proof.
  intros Hm. cbn [exec step].
  rewrite (run_start_miss _ a (tasks st)); [|reflexivity|exact Hm]. cbn [exec step].
  rewrite (run_miss _ a (tasks st)); [|reflexivity]. cbn [exec step].
  rewrite (run_computed _ a (tasks st) (generateDashboardData (db st) a) (now st)); [|reflexivity]. cbn [exec]. reflexivity.
Qed.

(** Cache reuse within the TTL ([redis.setex(cacheKey, 300, ...)],
    [Date.now()] in seconds): once a call has computed and stored the
    dashboard of [a], a later call less than 300 seconds after returns
    that same snapshot from Redis, without calling
    [generateDashboardData] again, even if the store changed meanwhile. *)
Theorem cache_reuse_within_ttl (st : state) (a : string) (s : Store) (k : nat)
  (Hmiss : redis_get st (cacheKey a) = None) (Hk : (k < 300)%nat) :
  let n := length (tasks st) in
  exists st',
    exec st ([Spawn a; Run n; Run n; Run n; Mutate s] ++ repeat Tick k ++ [Spawn a; Run (S n)])
      = Some st' /\
    tasks st' !! S n = Some (mkTask a (Returned (generateDashboardData (db st) a) (now st))) /\
    calls st' = calls st ++ [a].
Proof.
  intros n.
  change ([Spawn a; Run n; Run n; Run n; Mutate s] ++ repeat Tick k ++ [Spawn a; Run (S n)])
    with (([Spawn a; Run n; Run n; Run n] ++ [Mutate s]) ++ repeat Tick k ++ [Spawn a; Run (S n)]).
  rewrite !CacheFacts.exec_app. unfold n. rewrite exec_first_call by exact Hmiss. cbn [exec step].
  rewrite CacheFacts.exec_app, exec_ticks. cbn [exec step now db redis tasks calls].
  set (d := generateDashboardData (db st) a).
  set (ts := tasks st ++ [mkTask a (Returned d (now st))]).
  assert (Hn : S (length (tasks st)) = length ts).
  { unfold ts. rewrite length_app. simpl. lia. }
  rewrite Hn.
  rewrite (run_start_hit _ a ts (mkEntry d (now st) (now st + 300))); [| reflexivity |].
  - eexists. split; [reflexivity|]. cbn [tasks calls]. split; [|reflexivity].
    rewrite lookup_last. reflexivity.
  - unfold redis_get. cbn [redis now]. rewrite lookup_insert_eq. cbn [ent_exp].
    destruct (Z.leb_spec (now st + Z.of_nat k) (now st + 300)); [reflexivity|lia].
Qed.

(** Expiry: a call more than 300 seconds after the one that stored the
    dashboard of [a] misses (the [setex] key is past its expiry) and runs
    [generateDashboardData] again, on the store as it is now. *)
Theorem cache_recompute_after_ttl (st : state) (a : string) (s : Store) (k : nat)
  (Hmiss : redis_get st (cacheKey a) = None) (Hk : (300 < k)%nat) :
  let n := length (tasks st) in
  exists st',
    exec st ([Spawn a; Run n; Run n; Run n; Mutate s] ++ repeat Tick k
             ++ [Spawn a; Run (S n); Run (S n)]) = Some st' /\
    tasks st' !! S n = Some (mkTask a (Computed (generateDashboardData s a) (now st + Z.of_nat k))) /\
    calls st' = calls st ++ [a; a].
Proof.
  intros n.
  change ([Spawn a; Run n; Run n; Run n; Mutate s] ++ repeat Tick k ++ [Spawn a; Run (S n); Run (S n)])
    with (([Spawn a; Run n; Run n; Run n] ++ [Mutate s]) ++ repeat Tick k
          ++ [Spawn a; Run (S n); Run (S n)]).
  rewrite !CacheFacts.exec_app. unfold n. rewrite exec_first_call by exact Hmiss. cbn [exec step].
  rewrite CacheFacts.exec_app, exec_ticks. cbn [exec step now db redis tasks calls].
  set (d := generateDashboardData (db st) a).
  set (ts := tasks st ++ [mkTask a (Returned d (now st))]).
  assert (Hn : S (length (tasks st)) = length ts).
  { unfold ts. rewrite length_app. simpl. lia. }
  rewrite Hn.
  rewrite (run_start_miss _ a ts); [| reflexivity |].
  - cbn [exec step]. rewrite (run_miss _ a ts) by reflexivity. cbn [exec db now tasks calls].
    eexists. split; [reflexivity|]. cbn [tasks calls]. split.
    + rewrite lookup_last. reflexivity.
    + by rewrite <- app_assoc.
  - unfold redis_get. cbn [redis now]. rewrite lookup_insert_eq. cbn [ent_exp].
    destruct (Z.leb_spec (now st + Z.of_nat k) (now st + 300)); [lia|reflexivity].
Qed.

Lemma cache_reuse_within_ttl_witness :
  redis_get (init course_store) (cacheKey "a") = None /\ (10 < 300)%nat /\
  exists st',
    exec (init course_store)
         ([Spawn "a"; Run 0; Run 0; Run 0; Mutate course_store'] ++ repeat Tick 10
          ++ [Spawn "a"; Run 1]) = Some st' /\
    tasks st' !! 1%nat = Some (mkTask "a" (Returned (generateDashboardData course_store "a") 0)) /\
    calls st' = ["a"].
Proof.
  split; [reflexivity|]. split; [lia|].
  apply (cache_reuse_within_ttl (init course_store) "a" course_store' 10); [reflexivity|lia].
Defined.

Lemma cache_recompute_after_ttl_witness :
  redis_get (init course_store) (cacheKey "a") = None /\ (300 < 301)%nat /\
  exists st',
    exec (init course_store)
         ([Spawn "a"; Run 0; Run 0; Run 0; Mutate course_store'] ++ repeat Tick 301
          ++ [Spawn "a"; Run 1; Run 1]) = Some st' /\
    tasks st' !! 1%nat = Some (mkTask "a" (Computed (generateDashboardData course_store' "a") 301)) /\
    calls st' = ["a"; "a"].
Proof.
  split; [reflexivity|]. split; [lia|].
  apply (cache_recompute_after_ttl (init course_store) "a" course_store' 301); [reflexivity|lia].
Defined.

Lemma isolated_step st a act st' :
  (forall i t, tasks st !! i = Some t -> t_admin t <> a) ->
  act <> Spawn a -> act <> Invalidate a ->
  step st act = Some st' ->
  (forall i t, tasks st' !! i = Some t -> t_admin t <> a) /\
  redis st' !! cacheKey a = redis st !! cacheKey a.
Proof.
  intros Hno Hsp Hinv Hstep.
  destruct act as [x|i| |s|x]; simpl in Hstep; simplify_eq; simpl.
  - split; [|done]. intros i t Hi. apply lookup_snoc_Some in Hi as [[_ Hi]|[_ <-]].
    + by eapply Hno.
    + simpl. intros ->. done.
  - unfold run_task in Hstep.
    destruct (tasks st !! i) as [t|] eqn:Ht; [|done].
    pose proof (Hno _ _ Ht) as Hb.
    assert (Hset : forall p j y, set_phase st i t p !! j = Some y -> t_admin y <> a).
    { intros p j y Hj. apply CacheFacts.set_phase_lookup in Hj as [[-> ->]|[_ Hj]];
        [done|by eapply Hno]. }
    destruct (t_phase t) as [| |d c|d c]; [| | |done].
    + destruct (redis_get st (cacheKey (t_admin t))); simplify_eq; simpl;
        (split; [by eapply Hset|done]).
    + simplify_eq. simpl. split; [by eapply Hset|done].
    + simplify_eq. simpl. split; [by eapply Hset|].
      rewrite lookup_insert. case_decide as E; [|done].
      apply CacheFacts.cacheKey_inj in E. congruence.
  - done.
  - done.
  - split; [done|]. rewrite lookup_delete. case_decide as E; [|done].
    apply CacheFacts.cacheKey_inj in E. congruence.
Qed.

(** The cache key is per admin ([dashboard:${adminId}]): as long as no
    call for admin [a] is running or started and [a]'s key is not
    invalidated, calls for other admins, ticks and store changes never
    change [a]'s Redis entry. *)
Theorem cache_entries_isolated (st : state) (a : string) (acts : list action)
  (Hno : forall i t, tasks st !! i = Some t -> t_admin t <> a)
  (Hacts : Forall (fun act => act <> Spawn a /\ act <> Invalidate a) acts) :
  match exec st acts with
  | Some st' => redis st' !! cacheKey a = redis st !! cacheKey a
  | None => True
  end.
Proof.
  revert st Hno. induction Hacts as [|act acts [Hsp Hinv] Hacts IH]; intros st Hno; simpl; [done|].
  destruct (step st act) as [st1|] eqn:Hs; [|done].
  destruct (isolated_step st a act st1 Hno Hsp Hinv Hs) as [Hno1 Hr1].
  specialize (IH st1 Hno1). destruct (exec st1 acts); [|done]. congruence.
Qed.

Lemma cache_entries_isolated_witness :
  (forall i t, tasks warm_state !! i = Some t -> t_admin t <> "b") /\
  Forall (fun act => act <> Spawn "b" /\ act <> Invalidate "b")
         [Spawn "c"; Run 2; Run 2; Run 2; Run 1; Tick; Mutate course_store'; Invalidate "a"] /\
  match exec warm_state [Spawn "c"; Run 2; Run 2; Run 2; Run 1; Tick; Mutate course_store'; Invalidate "a"] with
  | Some st' => redis st' !! cacheKey "b" = redis warm_state !! cacheKey "b"
  | None => True
  end.
Proof.
  assert (Hno : forall i t, tasks warm_state !! i = Some t -> t_admin t <> "b").
  { intros [|[|i]] t H; vm_compute in H; [injection H as <-; discriminate
                                         |injection H as <-; discriminate|discriminate]. }
  assert (Hf : Forall (fun act => act <> Spawn "b" /\ act <> Invalidate "b")
         [Spawn "c"; Run 2; Run 2; Run 2; Run 1; Tick; Mutate course_store'; Invalidate "a"]).
  { repeat constructor; discriminate. }
  split; [exact Hno|]. split; [exact Hf|].
  exact (cache_entries_isolated warm_state "b" _ Hno Hf).
Defined.

End CacheMoreFacts.

Module SchemaMoreFacts.
Import Schema SchemaMore.
Local Open Scope list_scope.

(** [INSERT INTO enrollments] keeps the table's integrity: the ids stay
    unique (PRIMARY KEY) and every non-NULL [user_id] / [course_id]
    names an existing user / course (FOREIGN KEYs). *)
Theorem insert_enrollment_integrity (db db' : DB) (r : enrollment_row)
  (Hinv : enrollment_integrity db) (Hins : insert_enrollment db r = Some db') :
  enrollment_integrity db' /\ enrollments db' = enrollments db ++ [r].
Proof.
  destruct Hinv as [Hnd Hfk]. unfold insert_enrollment in Hins.
  case_bool_decide as Hid; [done|].
  destruct (fk_ok _ (e_user_id r)) eqn:Hu; [|done].
  destruct (fk_ok _ (e_course_id r)) eqn:Hc; [|done].
  simpl in Hins. injection Hins as <-. split; [|reflexivity].
  split; simpl.
  - rewrite map_app. apply NoDup_app. split; [done|]. split.
    + intros x Hx Hx'. apply list_elem_of_singleton in Hx'. subst. done.
    + apply NoDup_singleton.
  - apply Forall_app. split; [done|]. by constructor.
Qed.

Lemma insert_enrollment_integrity_witness :
  let db' := mkDB (users db0) (courses db0) [enr "e1"] (modules db0) [] [] [] in
  enrollment_integrity db0 /\ insert_enrollment db0 (enr "e1") = Some db' /\
  enrollment_integrity db' /\ enrollments db' = enrollments db0 ++ [enr "e1"].
Proof.
  intros db'.
  assert (H0 : enrollment_integrity db0) by (split; constructor).
  assert (Hi : insert_enrollment db0 (enr "e1") = Some db') by (vm_compute; reflexivity).
  split; [exact H0|]. split; [exact Hi|].
  exact (insert_enrollment_integrity db0 db' (enr "e1") H0 Hi).
Defined.

(** [INSERT INTO user_module_progress] keeps the ids unique (PRIMARY
    KEY) and never stores two rows with the same non-NULL
    [(user_id, module_id)] pair ([UNIQUE(user_id, module_id)]). *)
Theorem insert_progress_unique (db db' : DB) (r : progress_row)
  (Hids : NoDup (map p_id (user_module_progress db)))
  (Hpairs : progress_pairs_unique db)
  (Hins : insert_progress db r = Some db') :
  NoDup (map p_id (user_module_progress db')) /\ progress_pairs_unique db' /\
  user_module_progress db' = user_module_progress db ++ [r].
Proof.
  unfold insert_progress in Hins.
  case_bool_decide as Hid; [done|].
  destruct (fk_ok _ (p_user_id r)); [|done].
  destruct (fk_ok _ (p_module_id r)); [|done].
  destruct (existsb _ _) eqn:Hex; [done|].
  simpl in Hins. injection Hins as <-. unfold progress_pairs_unique in *. simpl.
  split; [|split; [|reflexivity]].
  - rewrite map_app. apply NoDup_app. split; [done|]. split.
    + intros x Hx Hx'. apply list_elem_of_singleton in Hx'. subst. done.
    + apply NoDup_singleton.
  - rewrite omap_app. apply NoDup_app. split; [done|]. split.
    + intros [u m] Hx Hx'. simpl in Hx'.
      unfold progress_pair in Hx'.
      destruct (p_user_id r) as [u'|] eqn:Hu; [|by apply not_elem_of_nil in Hx'].
      destruct (p_module_id r) as [m'|] eqn:Hm; [|by apply not_elem_of_nil in Hx'].
      apply list_elem_of_singleton in Hx'. injection Hx' as -> ->.
      apply list_elem_of_omap in Hx as (r' & Hr' & Hp).
      unfold progress_pair in Hp.
      destruct (p_user_id r') as [u''|] eqn:Hu'; [|done].
      destruct (p_module_id r') as [m''|] eqn:Hm'; [|done].
      injection Hp as -> ->.
      assert (Hin : existsb (fun r'0 => same_pair (p_user_id r'0, p_module_id r'0)
                                                (Some u', Some m'))
                            (user_module_progress db) = true).
      { apply existsb_exists. exists r'. split; [by apply list_elem_of_In|].
        rewrite Hu', Hm'. simpl. by apply bool_decide_eq_true_2. }
      congruence.
    + simpl. unfold progress_pair.
      destruct (p_user_id r), (p_module_id r); simpl; repeat constructor; set_solver.
Qed.

Lemma insert_progress_unique_witness :
  let db' := mkDB (users db0) (courses db0) [] (modules db0) [prog "p1"] [] [] in
  NoDup (map p_id (user_module_progress db0)) /\ progress_pairs_unique db0 /\
  insert_progress db0 (prog "p1") = Some db' /\
  NoDup (map p_id (user_module_progress db')) /\ progress_pairs_unique db' /\
  user_module_progress db' = user_module_progress db0 ++ [prog "p1"].
Proof.
  intros db'.
  assert (H1 : NoDup (map p_id (user_module_progress db0))) by constructor.
  assert (H2 : progress_pairs_unique db0) by constructor.
  assert (Hi : insert_progress db0 (prog "p1") = Some db') by (vm_compute; reflexivity).
  split; [exact H1|]. split; [exact H2|]. split; [exact Hi|].
  exact (insert_progress_unique db0 db' (prog "p1") H1 H2 Hi).
Defined.

Lemma rating_ok_spec r :
  rating_ok r = true <-> match r with None => True | Some x => (1 <= x <= 5)%Z end.
Proof.
  destruct r as [x|]; simpl; [|done].
  rewrite andb_true_iff, !Z.leb_le. done.
Qed.

(** The CHECK on [rating]: a feedback row whose rating is outside 1..5
    is refused by both feedback tables, whatever the rest of the row. *)
Theorem feedback_rating_out_of_range_refused (db : DB) (r : feedback_row) (x : Z)
  (Hr : f_rating r = Some x) (Hx : (x < 1 \/ 5 < x)%Z) :
  insert_course_feedback db r = None /\ insert_module_feedback db r = None.
Proof.
  assert (Hbad : rating_ok (f_rating r) = false).
  { destruct (rating_ok (f_rating r)) eqn:E; [|done].
    apply rating_ok_spec in E. rewrite Hr in E. lia. }
  unfold insert_course_feedback, insert_module_feedback. rewrite Hbad.
  split; repeat (case_match; try done).
Qed.

Lemma feedback_rating_out_of_range_refused_witness :
  f_rating (fb "f1" (Some 6%Z)) = Some 6%Z /\ (6 < 1 \/ 5 < 6)%Z /\
  insert_course_feedback db0 (fb "f1" (Some 6%Z)) = None /\
  insert_module_feedback db0 (fb "f1" (Some 6%Z)) = None.
Proof.
  split; [reflexivity|]. split; [lia|].
  apply (feedback_rating_out_of_range_refused db0 _ 6); [reflexivity|lia].
Defined.

(** Both feedback inserts keep every stored rating NULL or between 1
    and 5, and an accepted row is stored. *)
Theorem feedback_inserts_keep_ratings (db db' : DB) (r : feedback_row)
  (Hinv : feedback_ratings_ok db)
  (Hins : insert_course_feedback db r = Some db' \/ insert_module_feedback db r = Some db') :
  feedback_ratings_ok db' /\ In r (course_feedback db' ++ module_feedback db').
Proof.
  unfold feedback_ratings_ok in *.
  destruct Hins as [Hins|Hins];
    [unfold insert_course_feedback in Hins|unfold insert_module_feedback in Hins];
    (case_bool_decide; [done|]);
    (destruct (fk_ok _ (f_user_id r)); [|done]);
    (destruct (fk_ok _ (f_target r)); [|done]);
    (destruct (rating_ok (f_rating r)) eqn:Hok; [|done]);
    simpl in Hins; injection Hins as <-; simpl;
    apply rating_ok_spec in Hok;
    apply Forall_app in Hinv as [Hc Hm].
  - split.
    + rewrite <- app_assoc. apply Forall_app. split; [done|]. by constructor.
    + apply in_or_app. left. apply in_or_app. right. left. reflexivity.
  - split.
    + apply Forall_app. split; [done|]. apply Forall_app. split; [done|]. by constructor.
    + apply in_or_app. right. apply in_or_app. right. left. reflexivity.
Qed.

Lemma feedback_inserts_keep_ratings_witness :
  let db' := mkDB (users db0) (courses db0) [] (modules db0) [] [fb "f1" None] [] in
  feedback_ratings_ok db0 /\ insert_course_feedback db0 (fb "f1" None) = Some db' /\
  feedback_ratings_ok db' /\ In (fb "f1" None) (course_feedback db' ++ module_feedback db').
Proof.
  intros db'.
  assert (H0 : feedback_ratings_ok db0) by constructor.
  assert (Hi : insert_course_feedback db0 (fb "f1" None) = Some db') by (vm_compute; reflexivity).
  split; [exact H0|]. split; [exact Hi|].
  exact (feedback_inserts_keep_ratings db0 db' _ H0 (or_introl Hi)).
Defined.

(** A NULL rating passes the CHECK: a feedback row without a rating is
    refused only for a duplicate id or a user / course (module)
    reference that does not exist. *)
Theorem feedback_null_rating_accepted (db : DB) (r : feedback_row) (Hr : f_rating r = None) :
  (insert_course_feedback db r = None <->
     f_id r ∈ map f_id (course_feedback db) \/
     fk_ok (map u_id (users db)) (f_user_id r) = false \/
     fk_ok (map c_id (courses db)) (f_target r) = false) /\
  (insert_module_feedback db r = None <->
     f_id r ∈ map f_id (module_feedback db) \/
     fk_ok (map u_id (users db)) (f_user_id r) = false \/
     fk_ok (map m_id (modules db)) (f_target r) = false).
Proof.
  unfold insert_course_feedback, insert_module_feedback. rewrite Hr. simpl.
  split.
  all: case_bool_decide as Hid; [split; [intros _; left; exact Hid|reflexivity]|].
  all: destruct (fk_ok _ (f_user_id r)) eqn:Hu; simpl;
         [|split; [intros _; right; left; reflexivity|reflexivity]].
  all: destruct (fk_ok _ (f_target r)) eqn:Ht; simpl;
         [|split; [intros _; right; right; reflexivity|reflexivity]].
  all: split; [discriminate|]; intros [H|[H|H]]; [contradiction|congruence|congruence].
Qed.

Lemma feedback_null_rating_accepted_witness :
  f_rating (fb "f1" None) = None /\
  (insert_course_feedback db0 (fb "f1" None) = None <->
     f_id (fb "f1" None) ∈ map f_id (course_feedback db0) \/
     fk_ok (map u_id (users db0)) (f_user_id (fb "f1" None)) = false \/
     fk_ok (map c_id (courses db0)) (f_target (fb "f1" None)) = false) /\
  (insert_module_feedback db0 (fb "f1" None) = None <->
     f_id (fb "f1" None) ∈ map f_id (module_feedback db0) \/
     fk_ok (map u_id (users db0)) (f_user_id (fb "f1" None)) = false \/
     fk_ok (map m_id (modules db0)) (f_target (fb "f1" None)) = false).
Proof.
  split; [reflexivity|].
  exact (feedback_null_rating_accepted db0 (fb "f1" None) eq_refl).
Defined.

End SchemaMoreFacts.

Module AuthFacts.
Import Schema Auth.

(** [requireRole(roles)] calls [next()] with the request unchanged
    exactly when [req.user] is set and its role is one of [roles];
    otherwise (no user, or another role) it answers 403 with
    "Insufficient permissions". *)
Theorem requireRole_spec (roles : list role) (req : Request) :
  match requireRole roles req with
  | Next req' => req' = req /\ exists u, req_user req = Some u /\ jwt_role u ∈ roles
  | Respond status err =>
    status = 403%Z /\ err = "Insufficient permissions" /\
    ~ exists u, req_user req = Some u /\ jwt_role u ∈ roles
  end.
Proof.
  unfold requireRole. destruct (req_user req) as [u|] eqn:Hu.
  - case_bool_decide as Hr.
    + split; [done|]. by exists u.
    + split; [done|]. split; [done|]. intros (u' & [= <-] & Hr'). done.
  - split; [done|]. split; [done|]. intros (u' & Hu' & _). done.
Qed.

(** The admin dashboard route: whatever [authenticateJWT] does,
    [getDashboardData] is reached only with a request whose user has the
    [admin] role; every other outcome is the answer of [authenticateJWT]
    or the 403 of [requireRole]. *)
Theorem dashboard_route_admin_only (authenticateJWT : middleware) (req : Request) :
  match run_chain (dashboard_route authenticateJWT) req with
  | Handled req' => exists u, req_user req' = Some u /\ jwt_role u = admin
  | Responded status err =>
    authenticateJWT req = Respond status err \/
    (status = 403%Z /\ err = "Insufficient permissions")
  end.
Proof.
  simpl. destruct (authenticateJWT req) as [s e|req1]; [by left|].
  pose proof (requireRole_spec [admin] req1) as H.
  destruct (requireRole [admin] req1) as [s e|req2]; simpl.
  - right. tauto.
  - destruct H as [-> (u & Hu & Hr)]. exists u. split; [done|].
    by apply list_elem_of_singleton in Hr.
Qed.

End AuthFacts.

Module RealtimeHookFacts.
Import RealtimeHook.
Local Open Scope list_scope.

Lemma closed_stays {Data} (evs : list (@HookEvent Data)) m :
  fold_left on_event evs (mkHook m false) = mkHook m false.
Proof.
  revert m. induction evs as [|ev evs IH]; intros m; simpl; [done|].
  destruct ev; simpl; apply IH.
Qed.

Lemma messages_open {Data} (ms : list (option Data)) m :
  fold_left on_event (map Message ms) (mkHook m true) =
  mkHook (match last (omap (fun x => x) ms) with Some d => Some d | None => m end) true.
Proof.
  revert m. induction ms as [|p ms IH]; intros m; simpl; [done|].
  destruct p as [d|]; simpl; rewrite IH.
  - rewrite last_cons.
    change (omap (fun x => x) ms) with (list_omap (option Data) Data (fun x => x) ms).
    by destruct (last _).
  - done.
Qed.

(** [useRealtimeMetrics]: until the component unmounts, [metrics] is
    the last message whose data parsed as JSON ([undefined] if none
    did); after the cleanup closes the [EventSource], no later event
    changes it. *)
Theorem metrics_last_valid_message {Data : Type} (ms : list (option Data))
  (rest : list (@HookEvent Data)) :
  run_hook (map Message ms ++ Unmount :: rest) =
  mkHook (last (omap (fun x => x) ms)) false.
Proof.
  unfold run_hook, mount. rewrite fold_left_app, messages_open. simpl.
  rewrite closed_stays. by destruct (last _).
Qed.

End RealtimeHookFacts.

Module HttpMetricsFacts.
Import HttpMetrics.
Local Open Scope list_scope.



Lemma listener_kept st id evs :
  Forall (fun ev => mentions id ev = false) evs ->
  listeners (run_events st evs) !! id = listeners st !! id.
Proof.
  unfold run_events. revert st. induction evs as [|ev evs IH]; intros st Hev; simpl; [done|].
  apply Forall_cons in Hev as [Hev1 Hev]. rewrite IH by done.
  destruct ev as [id' req'|id' status'| |t]; simpl in Hev1 |- *; try done.
  - rewrite lookup_insert_ne; [done|]. intros ->. by rewrite Nat.eqb_refl in Hev1.
  - destruct (listeners st !! id') as [[r s]|]; [|done]. simpl.
    rewrite lookup_delete_ne; [done|]. intros ->. by rewrite Nat.eqb_refl in Hev1.
Qed.

(** The duration [metricsMiddleware] records is the difference of two
    readings of [Date.now()], at the middleware and at ['finish'],
    divided by 1000, whatever other requests and clock changes happen in
    between; nothing clamps it, so a wall clock set back while the
    request runs gives a negative duration. *)
Theorem duration_is_clock_difference (st : MState) (id : nat) (req : HttpReq)
  (evs : list MEvent) (status : Z)
  (Hev : Forall (fun ev => mentions id ev = false) evs) :
  let st1 := run_events st (Incoming id req :: evs) in
  histogram (handle st1 (Finish id status)) =
    histogram st1 ++ [mkObs (method req) (route_label req) status
                            (inject_Z (clock st1 - clock st) / inject_Z 1000)%Q].
Proof.
  intros st1. unfold st1. simpl.
  fold (run_events (mkMState (clock st) (<[id:=(req, clock st)]> (listeners st))
                             (passed st ++ [id]) (histogram st)) evs).
  rewrite listener_kept by exact Hev. simpl. rewrite lookup_insert_eq. reflexivity.
Qed.

Lemma duration_is_clock_difference_witness :
  let st0 := mkMState 1000 ∅ [] [] in
  let req := mkHttpReq "GET" None "/api/admin/dashboard" in
  let evs := [Incoming 2 (mkHttpReq "GET" (Some "") "/health"); Tick; ClockSet 995%Z; Finish 2 200%Z] in
  Forall (fun ev => mentions 1 ev = false) evs /\
  histogram (handle (run_events st0 (Incoming 1 req :: evs)) (Finish 1 200)) =
    histogram (run_events st0 (Incoming 1 req :: evs))
      ++ [mkObs "GET" "/api/admin/dashboard" 200 (inject_Z (995 - 1000) / inject_Z 1000)%Q].
Proof.
  intros st0 req evs.
  assert (Hev : Forall (fun ev => mentions 1 ev = false) evs) by (repeat constructor).
  split; [exact Hev|].
  exact (duration_is_clock_difference st0 1 req evs 200 Hev).
Defined.

End HttpMetricsFacts.
